(** * Per-identity rate limiters: sliding window and fixed interval

    A shallow embedding of [task_1.py] ([SlidingWindowRateLimiter]) and
    [task_2.py] ([ThrottlingRateLimiter]).

    Modelling choices.
    - Time.  Every method starts by sampling [time.time()].  The sample is
      an explicit argument [now] of the embedded method, so that a caller
      (or a trace) supplies the clock.  Timestamps are exact rationals
      ([Q]); the rounding of Python floats is not modelled.
    - Store.  [user_records : Dict[str, deque]] is a [gmap string (list Q)],
      the deque being the list read oldest-first ([popleft] drops the head,
      [append] adds at the end).  [user_last_timestamp : Dict[str, float]]
      is a [gmap string Q].
    - Objects.  A limiter is a record holding its configuration and its
      store; a method takes [self] and returns its result together with the
      updated [self].
    - Exceptions.  [window[0]] on an empty deque raises [IndexError]; the
      method that evaluates it returns an [option], [None] standing for the
      raised exception. *)

From Stdlib Require Import QArith Qminmax Lqa ZArith Lia List Sorted.
From stdpp Require Import base option gmap strings list fin_maps.

Local Open Scope Q_scope.

(** ** Shared vocabulary *)

(** [a < b] on rationals, as a boolean. *)
Definition Qlt_bool (a b : Q) : bool := negb (Qle_bool b a).

(** Python's two-argument [max(a, b)]: the first argument unless the second
    is strictly greater. *)
Definition py_max (a b : Q) : Q := if Qlt_bool a b then b else a.

(** Outcome of calling a class constructor: the new object, or the
    configuration error a validating constructor would raise. *)
Inductive construction (A : Type) : Type :=
| Constructed (self : A)
| ConfigurationError.
Arguments Constructed {A} self.
Arguments ConfigurationError {A}.

(** ** The sliding-window limiter ([task_1.py]) *)

Module SlidingWindow.

Record SlidingWindowRateLimiter : Type := Build {
  window_size : Q;
  max_requests : Z;
  user_records : gmap string (list Q)
}.

(** Assignment to [self.user_records]; the configuration is never
    reassigned after construction. *)
Definition set_user_records (self : SlidingWindowRateLimiter)
    (records : gmap string (list Q)) : SlidingWindowRateLimiter :=
  Build (window_size self) (max_requests self) records.

(** [__init__]: stores both arguments as given and starts with an empty
    store.  No branch of the source raises. *)
Definition __init__ (window_size : Q) (max_requests : Z)
    : construction SlidingWindowRateLimiter :=
  Constructed (Build window_size max_requests ∅).

(** The [while] loop of [_cleanup_window]:
    [while window and (current_time - window[0]) >= self.window_size:
       window.popleft()]. *)
Fixpoint pop_expired (size current_time : Q) (window : list Q) : list Q :=
  match window with
  | [] => []
  | oldest :: rest =>
      if Qle_bool size (current_time - oldest)
      then pop_expired size current_time rest
      else window
  end.

Definition _cleanup_window (user_id : string) (current_time : Q)
    (self : SlidingWindowRateLimiter) : SlidingWindowRateLimiter :=
  match user_records self !! user_id with
  | None => self
  | Some window =>
      match pop_expired (window_size self) current_time window with
      | [] => set_user_records self (delete user_id (user_records self))
      | window' => set_user_records self (<[user_id := window']> (user_records self))
      end
  end.

Definition can_send_message (user_id : string) (now : Q)
    (self : SlidingWindowRateLimiter) : bool * SlidingWindowRateLimiter :=
  let self := _cleanup_window user_id now self in
  (match user_records self !! user_id with
   | None => true
   | Some window => (Z.of_nat (length window) <? max_requests self)%Z
   end, self).

(** The tail of [record_message], once the deque of [user_id] is known to
    be in the store: the length test, the append, the result. *)
Definition record_into (user_id : string) (now : Q) (window : list Q)
    (self : SlidingWindowRateLimiter) : bool * SlidingWindowRateLimiter :=
  if (Z.of_nat (length window) <? max_requests self)%Z
  then (true, set_user_records self
                (<[user_id := window ++ [now]]> (user_records self)))
  else (false, self).

Definition record_message (user_id : string) (now : Q)
    (self : SlidingWindowRateLimiter) : bool * SlidingWindowRateLimiter :=
  let self := _cleanup_window user_id now self in
  match user_records self !! user_id with
  | None =>
      record_into user_id now []
        (set_user_records self (<[user_id := []]> (user_records self)))
  | Some window => record_into user_id now window self
  end.

(** [None] is the [IndexError] of [window[0]] on an empty deque. *)
Definition time_until_next_allowed (user_id : string) (now : Q)
    (self : SlidingWindowRateLimiter) : option Q * SlidingWindowRateLimiter :=
  let self := _cleanup_window user_id now self in
  (match user_records self !! user_id with
   | None => Some 0
   | Some window =>
       match window with
       | [] => None
       | oldest :: _ =>
           let elapsed := now - oldest in
           let wait := window_size self - elapsed in
           Some (py_max wait 0)
       end
   end, self).

End SlidingWindow.

(** ** The fixed-interval limiter ([task_2.py]) *)

Module Throttling.

Record ThrottlingRateLimiter : Type := Build {
  min_interval : Q;
  user_last_timestamp : gmap string Q
}.

Definition set_user_last_timestamp (self : ThrottlingRateLimiter)
    (stamps : gmap string Q) : ThrottlingRateLimiter :=
  Build (min_interval self) stamps.

(** [__init__]: stores the argument as given; no branch raises. *)
Definition __init__ (min_interval : Q) : construction ThrottlingRateLimiter :=
  Constructed (Build min_interval ∅).

(** The method only reads [self]; the limiter is returned as it came. *)
Definition can_send_message (user_id : string) (now : Q)
    (self : ThrottlingRateLimiter) : bool * ThrottlingRateLimiter :=
  (match user_last_timestamp self !! user_id with
   | None => true
   | Some last =>
       let elapsed := now - last in
       Qle_bool (min_interval self) elapsed
   end, self).

(** [record_message] samples the clock twice: once inside
    [can_send_message] ([now]) and once more for the stored value
    ([stamp], the second [time.time()]). *)
Definition record_message (user_id : string) (now stamp : Q)
    (self : ThrottlingRateLimiter) : bool * ThrottlingRateLimiter :=
  let (allowed, self) := can_send_message user_id now self in
  if allowed
  then (true, set_user_last_timestamp self
                (<[user_id := stamp]> (user_last_timestamp self)))
  else (false, self).

Definition time_until_next_allowed (user_id : string) (now : Q)
    (self : ThrottlingRateLimiter) : Q * ThrottlingRateLimiter :=
  (match user_last_timestamp self !! user_id with
   | None => 0
   | Some last =>
       let elapsed := now - last in
       let remaining := min_interval self - elapsed in
       py_max remaining 0
   end, self).

End Throttling.

(** ** Call sequences

    A caller's interaction with a limiter is a list of timed method calls,
    run in order from a given limiter.  The time attached to a call is the
    clock value the method samples. *)

(** A list of clock readings, none earlier than [start], each no earlier
    than the one before. *)
Fixpoint clock_from (start : Q) (times : list Q) : Prop :=
  match times with
  | [] => True
  | t :: later => start <= t /\ clock_from t later
  end.

Definition nondecreasing (times : list Q) : Prop :=
  match times with
  | [] => True
  | t :: later => clock_from t later
  end.

Module SlidingWindowTrace.
Import SlidingWindow.

Inductive call : Type :=
| CanSend (user_id : string)
| RecordMessage (user_id : string)
| TimeUntil (user_id : string).

Definition subject (c : call) : string :=
  match c with
  | CanSend u | RecordMessage u | TimeUntil u => u
  end.

(** The limiter after one call. *)
Definition perform (now : Q) (c : call)
    (self : SlidingWindowRateLimiter) : SlidingWindowRateLimiter :=
  match c with
  | CanSend u => snd (can_send_message u now self)
  | RecordMessage u => snd (record_message u now self)
  | TimeUntil u => snd (time_until_next_allowed u now self)
  end.

(** Whether the call is a [record_message] for [user_id] that returns
    [True]. *)
Definition admits (user_id : string) (now : Q) (c : call)
    (self : SlidingWindowRateLimiter) : bool :=
  match c with
  | RecordMessage u =>
      bool_decide (u = user_id) && fst (record_message u now self)
  | _ => false
  end.

Fixpoint run (trace : list (Q * call))
    (self : SlidingWindowRateLimiter) : SlidingWindowRateLimiter :=
  match trace with
  | [] => self
  | (now, c) :: rest => run rest (perform now c self)
  end.

(** Timestamps of the admitted [record_message] calls of [user_id], in
    call order. *)
Fixpoint admitted (user_id : string) (trace : list (Q * call))
    (self : SlidingWindowRateLimiter) : list Q :=
  match trace with
  | [] => []
  | (now, c) :: rest =>
      (if admits user_id now c self then [now] else [])
        ++ admitted user_id rest (perform now c self)
  end.

(** The deque stored for [user_id], empty when there is none. *)
Definition entries (user_id : string)
    (self : SlidingWindowRateLimiter) : list Q :=
  default [] (user_records self !! user_id).

(** Membership in the half-open interval [(now - size, now]]. *)
Definition in_window (size now t : Q) : bool :=
  Qlt_bool (now - size) t && Qle_bool t now.

(** The value [time_until_next_allowed] computes from the deque that
    cleanup left. *)
Definition wait_of (size now : Q) (window : list Q) : Q :=
  match window with
  | [] => 0
  | oldest :: _ => py_max (size - (now - oldest)) 0
  end.

(** Ageing test of the loop, as a proposition. *)
Definition expired (size now t : Q) : Prop := size <= now - t.

(** [history] lists the admitted timestamps of one identity so far and
    [stored] is its deque.  At clock value [clock] the deque is what is
    left of the history once a prefix of expired timestamps is dropped. *)
Definition history_ok (size clock : Q) (limit : Z)
    (history stored : list Q) : Prop :=
  StronglySorted Qle history
  /\ Forall (fun t => t <= clock) history
  /\ (exists dropped,
        history = dropped ++ stored /\ Forall (expired size clock) dropped)
  /\ (Z.of_nat (length stored) <= limit)%Z.

(** No identity of the store maps to an empty deque. *)
Definition no_empty_deque (self : SlidingWindowRateLimiter) : Prop :=
  forall user_id : string, user_records self !! user_id <> Some [].

End SlidingWindowTrace.

Module ThrottlingTrace.
Import Throttling.

(** [RecordMessage] carries the second clock sample of the method. *)
Inductive call : Type :=
| CanSend (user_id : string)
| RecordMessage (user_id : string) (stamp : Q)
| TimeUntil (user_id : string).

Definition perform (now : Q) (c : call)
    (self : ThrottlingRateLimiter) : ThrottlingRateLimiter :=
  match c with
  | CanSend u => snd (can_send_message u now self)
  | RecordMessage u stamp => snd (record_message u now stamp self)
  | TimeUntil u => snd (time_until_next_allowed u now self)
  end.

Definition records_for (user_id : string) (c : call) : bool :=
  match c with
  | RecordMessage u _ => bool_decide (u = user_id)
  | _ => false
  end.

Fixpoint run (trace : list (Q * call))
    (self : ThrottlingRateLimiter) : ThrottlingRateLimiter :=
  match trace with
  | [] => self
  | (now, c) :: rest => run rest (perform now c self)
  end.

End ThrottlingTrace.

(** ** Vocabulary for whole call sequences *)

Module SlidingWindowCalls.
Import SlidingWindow SlidingWindowTrace.

(** Whether a timed call is made for [user_id]. *)
Definition about (user_id : string) (e : Q * call) : bool :=
  bool_decide (subject (snd e) = user_id).

(** The calls of [trace] made for [user_id], in order. *)
Definition own_calls (user_id : string)
    (trace : list (Q * call)) : list (Q * call) :=
  List.filter (about user_id) trace.

(** How many timestamps of [history] lie in [(clock - size, clock]]. *)
Definition window_count (size clock : Q) (history : list Q) : Z :=
  Z.of_nat (length (List.filter (in_window size clock) history)).

(** Two limiters that a caller acting for [user_id] cannot tell apart:
    same configuration, same deque for [user_id]. *)
Definition same_view (user_id : string)
    (self other : SlidingWindowRateLimiter) : Prop :=
  window_size self = window_size other
  /\ max_requests self = max_requests other
  /\ entries user_id self = entries user_id other.

(** No window of [size] seconds, wherever it ends, holds more than [limit]
    timestamps of [history]. *)
Definition rate_ok (size : Q) (limit : Z) (history : list Q) : Prop :=
  forall clock : Q, (window_count size clock history <= limit)%Z.

End SlidingWindowCalls.

Module ThrottlingCalls.
Import Throttling ThrottlingTrace.

(** Whether the call is a [record_message] for [user_id] that returns
    [True]. *)
Definition admits (user_id : string) (now : Q) (c : call)
    (self : ThrottlingRateLimiter) : bool :=
  match c with
  | RecordMessage u stamp =>
      bool_decide (u = user_id) && fst (record_message u now stamp self)
  | _ => false
  end.

(** The timestamps stored by the admitted [record_message] calls of
    [user_id], in call order. *)
Fixpoint admitted (user_id : string) (trace : list (Q * call))
    (self : ThrottlingRateLimiter) : list Q :=
  match trace with
  | [] => []
  | (now, c) :: rest =>
      (if admits user_id now c self
       then match c with RecordMessage _ stamp => [stamp] | _ => [] end
       else [])
        ++ admitted user_id rest (perform now c self)
  end.

(** Each timestamp is at least [interval] after the one before it. *)
Fixpoint spaced (interval : Q) (stamps : list Q) : Prop :=
  match stamps with
  | [] => True
  | earlier :: rest =>
      match rest with
      | [] => True
      | later :: _ => interval <= later - earlier
      end /\ spaced interval rest
  end.

(** The second clock sample of a [record_message] call is not earlier
    than its first. *)
Definition stamp_after_check (e : Q * call) : Prop :=
  match snd e with
  | RecordMessage _ stamp => fst e <= stamp
  | _ => True
  end.

End ThrottlingCalls.

(** * Properties *)

(** ** Comparisons and [max] *)

Lemma Qlt_bool_iff (a b : Q) : Qlt_bool a b = true <-> a < b.
Proof.
  unfold Qlt_bool. rewrite negb_true_iff.
  destruct (Qle_bool b a) eqn:E.
  - apply Qle_bool_iff in E. split; [discriminate | lra].
  - split; [intros _ | reflexivity].
    destruct (Qlt_le_dec a b) as [H | H]; [exact H |].
    apply Qle_bool_iff in H. congruence.
Qed.

Lemma Qle_bool_false_iff (a b : Q) : Qle_bool a b = false <-> b < a.
Proof.
  rewrite <- Qlt_bool_iff. unfold Qlt_bool.
  destruct (Qle_bool a b); simpl; split; congruence.
Qed.

Lemma py_max_zero_spec (a : Q) :
  (a <= 0 -> py_max a 0 == 0) /\ (0 <= a -> py_max a 0 = a) /\ 0 <= py_max a 0.
Proof.
  unfold py_max. destruct (Qlt_bool a 0) eqn:E.
  - apply Qlt_bool_iff in E. repeat split; intros; lra.
  - assert (0 <= a).
    { destruct (Qlt_le_dec a 0) as [H | H]; [| exact H].
      apply Qlt_bool_iff in H. congruence. }
    repeat split; intros; lra.
Qed.

(** Python's [max] agrees with the mathematical maximum. *)
Lemma py_max_Qmax (a b : Q) : py_max a b == Qmax b a.
Proof.
  unfold py_max. destruct (Qlt_bool a b) eqn:E.
  - apply Qlt_bool_iff in E. symmetry. apply Q.max_l. lra.
  - assert (b <= a).
    { destruct (Qlt_le_dec a b) as [H | H]; [| exact H].
      apply Qlt_bool_iff in H. congruence. }
    symmetry. apply Q.max_r. exact H.
Qed.

(** ** Sliding window: the cleanup loop *)

Module SlidingWindowProofs.
Import SlidingWindow SlidingWindowTrace.

Lemma pop_expired_split (size now : Q) (window : list Q) :
  exists dropped,
    window = dropped ++ pop_expired size now window
    /\ Forall (expired size now) dropped.
Proof.
  induction window as [| t rest IH]; simpl.
  - exists []. split; [reflexivity | constructor].
  - destruct (Qle_bool size (now - t)) eqn:E.
    + destruct IH as (dropped & Heq & Hall).
      exists (t :: dropped). split.
      * simpl. congruence.
      * constructor; [apply Qle_bool_iff; exact E | exact Hall].
    + exists []. split; [reflexivity | constructor].
Qed.

Lemma pop_expired_head (size now : Q) (window : list Q) :
  match pop_expired size now window with
  | [] => True
  | oldest :: _ => now - oldest < size
  end.
Proof.
  induction window as [| t rest IH]; simpl; [exact I |].
  destruct (Qle_bool size (now - t)) eqn:E; [exact IH |].
  apply Qle_bool_false_iff. exact E.
Qed.

Lemma pop_expired_fresh (size now t : Q) (rest : list Q) :
  now - t < size -> pop_expired size now (t :: rest) = t :: rest.
Proof.
  intros H. simpl. apply Qle_bool_false_iff in H. rewrite H. reflexivity.
Qed.

Lemma pop_expired_stale (size now t : Q) (rest : list Q) :
  size <= now - t ->
  pop_expired size now (t :: rest) = pop_expired size now rest.
Proof.
  intros H. simpl. apply Qle_bool_iff in H. rewrite H. reflexivity.
Qed.

Lemma pop_expired_length (size now : Q) (window : list Q) :
  (length (pop_expired size now window) <= length window)%nat.
Proof.
  destruct (pop_expired_split size now window) as (dropped & Heq & _).
  rewrite Heq at 2. rewrite length_app. lia.
Qed.

Lemma pop_expired_idem (size now : Q) (window : list Q) :
  pop_expired size now (pop_expired size now window)
  = pop_expired size now window.
Proof.
  pose proof (pop_expired_head size now window) as H.
  destruct (pop_expired size now window) as [| t rest]; [reflexivity |].
  apply pop_expired_fresh. exact H.
Qed.

(** A later clock value drops at least what an earlier one dropped. *)
Lemma pop_expired_later (size t1 t2 : Q) (window : list Q) :
  t1 <= t2 ->
  pop_expired size t2 (pop_expired size t1 window)
  = pop_expired size t2 window.
Proof.
  intros Hle. induction window as [| t rest IH]; simpl; [reflexivity |].
  destruct (Qle_bool size (t1 - t)) eqn:E1.
  - apply Qle_bool_iff in E1.
    assert (E2 : Qle_bool size (t2 - t) = true) by (apply Qle_bool_iff; lra).
    rewrite E2. exact IH.
  - reflexivity.
Qed.

(** On a chronologically ordered deque the loop computes the filter. *)
Lemma pop_expired_filter (size now : Q) (window : list Q) :
  StronglySorted Qle window ->
  Forall (fun t => t <= now) window ->
  pop_expired size now window = List.filter (in_window size now) window.
Proof.
  induction 1 as [| t rest Hsorted IH Hall]; intros Hnow; [reflexivity |].
  apply Forall_cons_1 in Hnow as [Ht Hrest].
  simpl. unfold in_window at 1.
  destruct (Qle_bool size (now - t)) eqn:E.
  - apply Qle_bool_iff in E.
    assert (F : Qlt_bool (now - size) t = false).
    { destruct (Qlt_bool (now - size) t) eqn:F; [| reflexivity].
      apply Qlt_bool_iff in F. lra. }
    rewrite F. simpl. apply IH. exact Hrest.
  - apply Qle_bool_false_iff in E.
    assert (F : Qlt_bool (now - size) t = true) by (apply Qlt_bool_iff; lra).
    assert (G : Qle_bool t now = true) by (apply Qle_bool_iff; exact Ht).
    rewrite F, G. simpl. f_equal.
    clear IH Hsorted. induction rest as [| r rest IH]; [reflexivity |].
    apply Forall_cons_1 in Hall as [Hr Hall].
    apply Forall_cons_1 in Hrest as [Hr' Hrest].
    simpl. unfold in_window at 1.
    assert (F' : Qlt_bool (now - size) r = true) by (apply Qlt_bool_iff; lra).
    assert (G' : Qle_bool r now = true) by (apply Qle_bool_iff; exact Hr').
    rewrite F', G'. simpl. f_equal. apply IH; assumption.
Qed.

(** ** Sliding window: the store after cleanup *)

Lemma cleanup_config (user_id : string) (now : Q)
    (self : SlidingWindowRateLimiter) :
  window_size (_cleanup_window user_id now self) = window_size self
  /\ max_requests (_cleanup_window user_id now self) = max_requests self.
Proof.
  unfold _cleanup_window.
  destruct (user_records self !! user_id) as [window |]; [| auto].
  destruct (pop_expired _ _ window); auto.
Qed.

Lemma cleanup_lookup (user_id : string) (now : Q)
    (self : SlidingWindowRateLimiter) :
  user_records (_cleanup_window user_id now self) !! user_id
  = match user_records self !! user_id with
    | None => None
    | Some window =>
        match pop_expired (window_size self) now window with
        | [] => None
        | window' => Some window'
        end
    end.
Proof.
  unfold _cleanup_window.
  destruct (user_records self !! user_id) as [window |] eqn:E; [| exact E].
  destruct (pop_expired _ _ window); simpl.
  - apply lookup_delete_eq.
  - apply lookup_insert_eq.
Qed.

Lemma cleanup_lookup_other (user_id other : string) (now : Q)
    (self : SlidingWindowRateLimiter) :
  user_id <> other ->
  user_records (_cleanup_window user_id now self) !! other
  = user_records self !! other.
Proof.
  intros Hne. unfold _cleanup_window.
  destruct (user_records self !! user_id) as [window |]; [| reflexivity].
  destruct (pop_expired _ _ window); simpl.
  - apply lookup_delete_ne. exact Hne.
  - apply lookup_insert_ne. exact Hne.
Qed.

Lemma cleanup_entries (user_id : string) (now : Q)
    (self : SlidingWindowRateLimiter) :
  entries user_id (_cleanup_window user_id now self)
  = pop_expired (window_size self) now (entries user_id self).
Proof.
  unfold entries. rewrite cleanup_lookup.
  destruct (user_records self !! user_id) as [window |]; [| reflexivity].
  simpl. destruct (pop_expired _ _ window); reflexivity.
Qed.

(** After cleanup the identity is absent or maps to a deque whose oldest
    entry is younger than the window. *)
Lemma cleanup_lookup_cases (user_id : string) (now : Q)
    (self : SlidingWindowRateLimiter) :
  user_records (_cleanup_window user_id now self) !! user_id = None
  \/ exists oldest rest,
       user_records (_cleanup_window user_id now self) !! user_id
       = Some (oldest :: rest)
       /\ now - oldest < window_size self.
Proof.
  rewrite cleanup_lookup.
  destruct (user_records self !! user_id) as [window |]; [| left; reflexivity].
  pose proof (pop_expired_head (window_size self) now window) as H.
  destruct (pop_expired _ _ window) as [| oldest rest]; [left; reflexivity |].
  right. exists oldest, rest. split; [reflexivity | exact H].
Qed.

Lemma set_user_records_id (self : SlidingWindowRateLimiter) :
  set_user_records self (user_records self) = self.
Proof. destruct self. reflexivity. Qed.

Lemma cleanup_idem (user_id : string) (now : Q)
    (self : SlidingWindowRateLimiter) :
  _cleanup_window user_id now (_cleanup_window user_id now self)
  = _cleanup_window user_id now self.
Proof.
  destruct (cleanup_lookup_cases user_id now self)
    as [E | (oldest & rest & E & Hage)];
    unfold _cleanup_window at 1; rewrite E; [reflexivity |].
  destruct (cleanup_config user_id now self) as [-> _].
  rewrite pop_expired_fresh by exact Hage.
  rewrite insert_id by exact E. apply set_user_records_id.
Qed.

(** ** Sliding window: [record_message] *)

(** [record_message] in one equation, for a limiter that allows at least
    one request per window. *)
Lemma record_message_spec (user_id : string) (now : Q)
    (self : SlidingWindowRateLimiter) :
  (1 <= max_requests self)%Z ->
  let cleaned := _cleanup_window user_id now self in
  let window := entries user_id cleaned in
  record_message user_id now self
  = if (Z.of_nat (length window) <? max_requests self)%Z
    then (true, set_user_records cleaned
                  (<[user_id := window ++ [now]]> (user_records cleaned)))
    else (false, cleaned).
Proof.
  intros Hlimit cleaned window. subst window. unfold record_message, entries.
  fold cleaned.
  assert (Hmax : max_requests cleaned = max_requests self)
    by apply cleanup_config.
  destruct (user_records cleaned !! user_id) as [window |] eqn:E; simpl.
  - unfold record_into. rewrite Hmax.
    destruct (Z.of_nat (length window) <? max_requests self)%Z; reflexivity.
  - unfold record_into. simpl. rewrite Hmax.
    assert (H : (Z.of_nat 0 <? max_requests self)%Z = true)
      by (apply Z.ltb_lt; simpl; lia).
    rewrite H. unfold set_user_records. simpl.
    rewrite insert_insert_eq. reflexivity.
Qed.

(** The deque of [user_id] after [record_message], for any limit. *)
Lemma record_message_entries (user_id : string) (now : Q)
    (self : SlidingWindowRateLimiter) :
  let window := pop_expired (window_size self) now (entries user_id self) in
  if (Z.of_nat (length window) <? max_requests self)%Z
  then fst (record_message user_id now self) = true
       /\ entries user_id (snd (record_message user_id now self))
          = window ++ [now]
  else fst (record_message user_id now self) = false
       /\ entries user_id (snd (record_message user_id now self)) = window.
Proof.
  intros window. subst window. rewrite <- cleanup_entries.
  unfold record_message, entries.
  set (cleaned := _cleanup_window user_id now self).
  assert (Hmax : max_requests cleaned = max_requests self)
    by apply cleanup_config.
  destruct (user_records cleaned !! user_id) as [window |] eqn:E; simpl;
    unfold record_into; simpl; rewrite Hmax.
  - destruct (Z.of_nat (length window) <? max_requests self)%Z; simpl.
    + rewrite lookup_insert_eq. auto.
    + rewrite E. auto.
  - destruct (Z.of_nat 0 <? max_requests self)%Z; simpl;
      rewrite lookup_insert_eq; auto.
Qed.

Lemma record_message_lookup_other (user_id other : string) (now : Q)
    (self : SlidingWindowRateLimiter) :
  user_id <> other ->
  user_records (snd (record_message user_id now self)) !! other
  = user_records self !! other.
Proof.
  intros Hne. unfold record_message.
  set (cleaned := _cleanup_window user_id now self).
  rewrite <- (cleanup_lookup_other user_id other now self Hne). fold cleaned.
  destruct (user_records cleaned !! user_id) as [window |]; unfold record_into.
  - destruct (_ <? _)%Z; simpl; [apply lookup_insert_ne; exact Hne | reflexivity].
  - simpl. destruct (_ <? _)%Z; simpl.
    + rewrite !lookup_insert_ne by exact Hne. reflexivity.
    + apply lookup_insert_ne. exact Hne.
Qed.

Lemma record_message_config (user_id : string) (now : Q)
    (self : SlidingWindowRateLimiter) :
  window_size (snd (record_message user_id now self)) = window_size self
  /\ max_requests (snd (record_message user_id now self)) = max_requests self.
Proof.
  unfold record_message.
  destruct (cleanup_config user_id now self) as [Hw Hm].
  set (cleaned := _cleanup_window user_id now self) in *.
  destruct (user_records cleaned !! user_id) as [window |]; unfold record_into;
    simpl; destruct (_ <? _)%Z; simpl; auto.
Qed.

Lemma perform_config (now : Q) (c : call) (self : SlidingWindowRateLimiter) :
  window_size (perform now c self) = window_size self
  /\ max_requests (perform now c self) = max_requests self.
Proof.
  destruct c as [u | u | u]; simpl.
  - apply cleanup_config.
  - apply record_message_config.
  - apply cleanup_config.
Qed.

(** A call on one identity leaves the entry of any other identity as it
    was. *)
Lemma perform_lookup_other (now : Q) (c : call) (other : string)
    (self : SlidingWindowRateLimiter) :
  subject c <> other ->
  user_records (perform now c self) !! other = user_records self !! other.
Proof.
  destruct c as [u | u | u]; simpl; intros Hne.
  - apply cleanup_lookup_other. exact Hne.
  - apply record_message_lookup_other. exact Hne.
  - apply cleanup_lookup_other. exact Hne.
Qed.

(** ** Sliding window: the history invariant *)

Lemma StronglySorted_snoc (history : list Q) (now : Q) :
  StronglySorted Qle history ->
  Forall (fun t => t <= now) history ->
  StronglySorted Qle (history ++ [now]).
Proof.
  induction 1 as [| t rest Hsorted IH Hall]; intros Hnow; simpl.
  - repeat constructor.
  - apply Forall_cons_1 in Hnow as [Ht Hrest].
    constructor; [apply IH; exact Hrest |].
    apply Forall_app. split; [exact Hall | constructor; [exact Ht | constructor]].
Qed.

Lemma expired_later (size t1 t2 : Q) (stamps : list Q) :
  t1 <= t2 -> Forall (expired size t1) stamps -> Forall (expired size t2) stamps.
Proof.
  intros Hle Hold. eapply Forall_impl; [exact Hold |].
  unfold expired. intros t Ht. lra.
Qed.

Lemma before_later (t1 t2 : Q) (stamps : list Q) :
  t1 <= t2 ->
  Forall (fun t => t <= t1) stamps -> Forall (fun t => t <= t2) stamps.
Proof.
  intros Hle Hpast. eapply Forall_impl; [exact Hpast |].
  simpl. intros t Ht. lra.
Qed.

Lemma history_ok_later (size t1 t2 : Q) (limit : Z) (history stored : list Q) :
  t1 <= t2 ->
  history_ok size t1 limit history stored ->
  history_ok size t2 limit history stored.
Proof.
  intros Hle (Hsorted & Hpast & (dropped & Heq & Hold) & Hlen).
  repeat split; [exact Hsorted | | | exact Hlen].
  - exact (before_later t1 t2 _ Hle Hpast).
  - exists dropped. split; [exact Heq | exact (expired_later size t1 t2 _ Hle Hold)].
Qed.

Lemma history_ok_cleanup (size now : Q) (limit : Z) (history stored : list Q) :
  history_ok size now limit history stored ->
  history_ok size now limit history (pop_expired size now stored).
Proof.
  intros (Hsorted & Hpast & (dropped & Heq & Hold) & Hlen).
  repeat split; [exact Hsorted | exact Hpast | |].
  - destruct (pop_expired_split size now stored) as (more & Hmore & Hstale).
    exists (dropped ++ more). split.
    + rewrite <- app_assoc, <- Hmore. exact Heq.
    + apply Forall_app. split; assumption.
  - pose proof (pop_expired_length size now stored). lia.
Qed.

Lemma history_ok_append (size now : Q) (limit : Z) (history stored : list Q) :
  (Z.of_nat (length stored) < limit)%Z ->
  history_ok size now limit history stored ->
  history_ok size now limit (history ++ [now]) (stored ++ [now]).
Proof.
  intros Hroom (Hsorted & Hpast & (dropped & Heq & Hold) & Hlen).
  repeat split.
  - apply StronglySorted_snoc; assumption.
  - apply Forall_app. split; [exact Hpast |].
    constructor; [lra | constructor].
  - exists dropped. split; [| exact Hold].
    rewrite Heq, app_assoc. reflexivity.
  - rewrite length_app. simpl. lia.
Qed.

(** One call keeps the invariant and extends the history by the
    admitted timestamp, if any. *)
Lemma perform_history (user_id : string) (clock now : Q) (c : call)
    (self : SlidingWindowRateLimiter) (history : list Q) :
  clock <= now ->
  history_ok (window_size self) clock (max_requests self) history
    (entries user_id self) ->
  history_ok (window_size self) now (max_requests self)
    (history ++ (if admits user_id now c self then [now] else []))
    (entries user_id (perform now c self)).
Proof.
  intros Hle Hinv.
  apply (history_ok_later _ _ _ _ _ _ Hle) in Hinv.
  destruct (decide (subject c = user_id)) as [Heq | Hne].
  - destruct c as [u | u | u]; simpl in Heq; subst u; simpl.
    + rewrite app_nil_r, cleanup_entries. apply history_ok_cleanup. exact Hinv.
    + rewrite bool_decide_eq_true_2 by reflexivity. simpl.
      pose proof (record_message_entries user_id now self) as Hrec.
      simpl in Hrec. apply history_ok_cleanup in Hinv.
      destruct (Z.of_nat (length (pop_expired (window_size self) now
                                    (entries user_id self)))
                <? max_requests self)%Z eqn:E;
        destruct Hrec as [-> ->].
      * apply history_ok_append; [apply Z.ltb_lt; exact E | exact Hinv].
      * rewrite app_nil_r. exact Hinv.
    + rewrite app_nil_r, cleanup_entries. apply history_ok_cleanup. exact Hinv.
  - assert (Hadm : admits user_id now c self = false).
    { destruct c as [u | u | u]; simpl in *; try reflexivity.
      rewrite bool_decide_eq_false_2 by exact Hne. reflexivity. }
    rewrite Hadm, app_nil_r. unfold entries.
    rewrite perform_lookup_other by exact Hne. exact Hinv.
Qed.

Lemma run_history (user_id : string) (now : Q) (trace : list (Q * call)) :
  forall (clock : Q) (self : SlidingWindowRateLimiter) (history : list Q),
    clock_from clock (map fst trace ++ [now]) ->
    history_ok (window_size self) clock (max_requests self) history
      (entries user_id self) ->
    history_ok (window_size self) now (max_requests self)
      (history ++ admitted user_id trace self)
      (entries user_id (run trace self)).
Proof.
  induction trace as [| [t c] rest IH]; intros clock self history Hclock Hinv.
  - simpl in *. rewrite app_nil_r.
    apply (history_ok_later _ clock); [tauto | exact Hinv].
  - simpl in Hclock. destruct Hclock as [Hle Hrest]. simpl.
    rewrite app_assoc.
    destruct (perform_config t c self) as [Hw Hm].
    rewrite <- Hw, <- Hm. apply (IH t); [exact Hrest |].
    rewrite Hw, Hm. apply (perform_history _ clock); assumption.
Qed.

Lemma history_ok_empty (size clock : Q) (limit : Z) :
  (0 <= limit)%Z -> history_ok size clock limit [] [].
Proof.
  intros H. repeat split; try constructor.
  - exists []. split; [reflexivity | constructor].
  - simpl. exact H.
Qed.

Lemma filter_expired_nil (size now : Q) (stamps : list Q) :
  Forall (expired size now) stamps ->
  List.filter (in_window size now) stamps = [].
Proof.
  induction 1 as [| t rest Ht _ IH]; [reflexivity |].
  simpl. unfold in_window at 1. unfold expired in Ht.
  destruct (Qlt_bool (now - size) t) eqn:F; [| exact IH].
  apply Qlt_bool_iff in F. lra.
Qed.

Lemma StronglySorted_app_r (l1 l2 : list Q) :
  StronglySorted Qle (l1 ++ l2) -> StronglySorted Qle l2.
Proof.
  induction l1 as [| t l1 IH]; simpl; [trivial |].
  intros H. apply StronglySorted_inv in H as [H _]. exact (IH H).
Qed.

(** What cleanup leaves of the deque is the part of the history inside
    the window. *)
Lemma history_ok_window (size now : Q) (limit : Z) (history stored : list Q) :
  history_ok size now limit history stored ->
  pop_expired size now stored = List.filter (in_window size now) history.
Proof.
  intros (Hsorted & Hpast & (dropped & Heq & Hold) & Hlen). subst history.
  rewrite List.filter_app, filter_expired_nil by exact Hold. simpl.
  apply pop_expired_filter.
  - exact (StronglySorted_app_r _ _ Hsorted).
  - apply Forall_app in Hpast. tauto.
Qed.

Lemma run_config (trace : list (Q * call)) :
  forall self : SlidingWindowRateLimiter,
    window_size (run trace self) = window_size self
    /\ max_requests (run trace self) = max_requests self.
Proof.
  induction trace as [| [t c] rest IH]; intros self; simpl; [auto |].
  destruct (IH (perform t c self)) as [-> ->]. apply perform_config.
Qed.

(** ** Sliding window: window containment *)

(** C1.  Run any sequence of calls, on any identities and with a clock
    that never goes back, from a freshly built limiter that allows at
    least one request per window.  At a clock value [now] no earlier than
    the last call, the deque that cleanup leaves for an identity is the
    list of timestamps of its admitted [record_message] calls that lie in
    [(now - window_size, now]], in call order; it holds at most
    [max_requests] entries; and [record_message] at [now] returns [True]
    and appends [now] exactly when that deque is shorter than
    [max_requests], and otherwise returns [False] and leaves the limiter
    as cleanup left it. *)
Theorem window_containment (size : Q) (limit : Z)
    (trace : list (Q * call)) (user_id : string) (now : Q) :
  (1 <= limit)%Z ->
  nondecreasing (map fst trace ++ [now]) ->
  let fresh := Build size limit ∅ in
  let self := run trace fresh in
  let cleaned := _cleanup_window user_id now self in
  let window := entries user_id cleaned in
  window = List.filter (in_window size now) (admitted user_id trace fresh)
  /\ (Z.of_nat (length window) <= limit)%Z
  /\ record_message user_id now self
     = if (Z.of_nat (length window) <? limit)%Z
       then (true, set_user_records cleaned
                     (<[user_id := window ++ [now]]> (user_records cleaned)))
       else (false, cleaned).
Proof.
  intros Hlimit Hclock fresh self cleaned window.
  assert (Hinv : history_ok size now limit (admitted user_id trace fresh)
                   (entries user_id self)).
  { assert (Hstart : exists clock,
               clock_from clock (map fst trace ++ [now])).
    { destruct trace as [| [t c] rest]; simpl in *.
      - exists now. split; [lra | exact I].
      - exists t. split; [lra | exact Hclock]. }
    destruct Hstart as [clock Hfrom].
    apply (run_history user_id now trace clock fresh [] Hfrom).
    simpl. apply history_ok_empty. lia. }
  destruct (run_config trace fresh) as [Hw Hm]. fold self in Hw, Hm.
  simpl in Hw, Hm.
  assert (Hwindow : window = pop_expired size now (entries user_id self)).
  { subst window cleaned. rewrite cleanup_entries, Hw. reflexivity. }
  split; [| split].
  - rewrite Hwindow. exact (history_ok_window _ _ _ _ _ Hinv).
  - apply history_ok_cleanup in Hinv. rewrite Hwindow.
    destruct Hinv as (_ & _ & _ & Hlen). exact Hlen.
  - rewrite <- Hm. apply record_message_spec. rewrite Hm. exact Hlimit.
Qed.

Lemma window_containment_witness :
  let trace := [(0, RecordMessage "u3"); (1, RecordMessage "u3");
                (1, CanSend "u7"); (2, RecordMessage "u3");
                (3, RecordMessage "u3")] in
  let now := 10001 # 1000 in
  let fresh := Build 10 3 ∅ in
  (1 <= 3)%Z
  /\ nondecreasing (map fst trace ++ [now])
  /\ entries "u3" (_cleanup_window "u3" now (run trace fresh))
     = List.filter (in_window 10 now) (admitted "u3" trace fresh).
Proof.
  intros trace now fresh.
  assert (H1 : (1 <= 3)%Z) by lia.
  assert (H2 : nondecreasing (map fst trace ++ [now])).
  { simpl. unfold now. repeat split; try lra. }
  split; [exact H1 | split; [exact H2 |]].
  exact (proj1 (window_containment 10 3 trace "u3" now H1 H2)).
Defined.

Example burst_scenario :
  let trace := [(0, RecordMessage "u3"); (1, RecordMessage "u3");
                (2, RecordMessage "u3"); (3, RecordMessage "u3")] in
  let fresh := Build 10 3 ∅ in
  admitted "u3" trace fresh = [0; 1; 2]
  /\ entries "u3" (run trace fresh) = [0; 1; 2]
  /\ fst (record_message "u3" (10001 # 1000) (run trace fresh)) = true
  /\ entries "u3" (snd (record_message "u3" (10001 # 1000) (run trace fresh)))
     = [1; 2; 10001 # 1000].
Proof. vm_compute. repeat split. Qed.

(** ** Sliding window: what cleanup removes *)

(** C2.  Each of the three methods starts with [_cleanup_window]: its
    outcome is its outcome on the cleaned limiter, and the two queries
    leave the limiter exactly as cleanup left it.  Cleanup drops a prefix
    of the identity's deque, every dropped timestamp has age at least
    [window_size], and what remains is either nothing (the identity is
    then absent from the store) or starts with a timestamp younger than
    [window_size].  An oldest entry of age exactly [window_size] is
    dropped, and every entry younger than [window_size] is kept. *)
Theorem cleanup_window_front_removal (user_id : string) (now : Q)
    (self : SlidingWindowRateLimiter) :
  let size := window_size self in
  let cleaned := _cleanup_window user_id now self in
  (can_send_message user_id now self = can_send_message user_id now cleaned
   /\ record_message user_id now self = record_message user_id now cleaned
   /\ time_until_next_allowed user_id now self
      = time_until_next_allowed user_id now cleaned
   /\ snd (can_send_message user_id now self) = cleaned
   /\ snd (time_until_next_allowed user_id now self) = cleaned)
  /\ (exists dropped,
        entries user_id self = dropped ++ entries user_id cleaned
        /\ Forall (fun t => size <= now - t) dropped)
  /\ match entries user_id cleaned with
     | [] => user_records cleaned !! user_id = None
     | oldest :: _ => now - oldest < size
     end
  /\ (forall oldest rest,
        entries user_id self = oldest :: rest ->
        now - oldest == size ->
        entries user_id cleaned = pop_expired size now rest)
  /\ (forall t,
        In t (entries user_id self) -> now - t < size ->
        In t (entries user_id cleaned)).
Proof.
  intros size cleaned.
  assert (Hsplit : exists dropped,
             entries user_id self = dropped ++ entries user_id cleaned
             /\ Forall (fun t => size <= now - t) dropped).
  { subst cleaned. rewrite cleanup_entries. apply pop_expired_split. }
  split; [| split; [exact Hsplit | split; [| split]]].
  - unfold can_send_message, record_message, time_until_next_allowed.
    fold cleaned. subst cleaned. rewrite cleanup_idem. auto.
  - unfold entries.
    destruct (cleanup_lookup_cases user_id now self)
      as [E | (oldest & rest & E & Hage)]; fold cleaned in E; rewrite E; simpl.
    + reflexivity.
    + exact Hage.
  - intros oldest rest Hself Hage. subst cleaned.
    rewrite cleanup_entries, Hself. apply pop_expired_stale.
    fold size. lra.
  - intros t Hin Hage. destruct Hsplit as (dropped & Heq & Hold).
    rewrite Heq in Hin. apply in_app_or in Hin as [Hin | Hin]; [| exact Hin].
    rewrite Forall_forall in Hold.
    assert (size <= now - t) by (apply Hold, list_elem_of_In; exact Hin). lra.
Qed.

Lemma cleanup_window_front_removal_witness :
  let self := Build 10 3 {[ "u1" := [0; 4] ]} in
  entries "u1" self = [0; 4]
  /\ 10 - 0 == 10
  /\ entries "u1" (_cleanup_window "u1" 10 self) = [4].
Proof.
  intros self.
  assert (H1 : entries "u1" self = [0; 4]) by reflexivity.
  assert (H2 : 10 - 0 == 10) by reflexivity.
  split; [exact H1 | split; [exact H2 |]].
  pose proof (cleanup_window_front_removal "u1" 10 self) as (_ & _ & _ & H & _).
  exact (H 0 [4] H1 H2).
Defined.

Example cleanup_boundary :
  pop_expired 10 10 [0] = []
  /\ pop_expired 10 (9999 # 1000) [0] = [0]
  /\ user_records (_cleanup_window "u1" 10 (Build 10 1 {[ "u1" := [0] ]})) !! "u1"
     = None.
Proof. vm_compute. repeat split. Qed.

(** ** Sliding window: the waiting time *)

(** C3.  [time_until_next_allowed] never fails on [window[0]].  It returns
    [0] when cleanup leaves no entry for the identity, which is the case
    of every identity absent from the store, and otherwise the maximum of
    [0] and [window_size - (now - oldest)] for the oldest entry left.
    With a window of 10 seconds and one request per window, a record at
    time 0 is admitted, a record at time 5 is refused and the waiting
    time there is 5, and a record at time 10.001 is admitted. *)
Theorem time_until_next_allowed_spec (user_id : string) (now : Q)
    (self : SlidingWindowRateLimiter) :
  let cleaned := _cleanup_window user_id now self in
  (exists wait,
     fst (time_until_next_allowed user_id now self) = Some wait
     /\ 0 <= wait
     /\ wait == match user_records cleaned !! user_id with
                | None => 0
                | Some window =>
                    match window with
                    | [] => 0
                    | oldest :: _ => Qmax 0 (window_size self - (now - oldest))
                    end
                end)
  /\ (user_records cleaned !! user_id = None ->
      fst (time_until_next_allowed user_id now self) = Some 0)
  /\ (user_records self !! user_id = None ->
      time_until_next_allowed user_id now self = (Some 0, self))
  /\ (let fresh := Build 10 1 ∅ in
      let at0 := record_message "u1" 0 fresh in
      let at5 := record_message "u1" 5 (snd at0) in
      let wait5 := time_until_next_allowed "u1" 5 (snd at5) in
      let later := record_message "u1" (10001 # 1000) (snd wait5) in
      fst at0 = true /\ fst at5 = false /\ fst wait5 = Some 5
      /\ fst later = true).
Proof.
  intros cleaned.
  assert (Hw : window_size cleaned = window_size self) by apply cleanup_config.
  split; [| split; [| split]].
  - unfold time_until_next_allowed. fold cleaned. simpl.
    destruct (cleanup_lookup_cases user_id now self)
      as [E | (oldest & rest & E & Hage)]; fold cleaned in E; rewrite E.
    + exists 0. repeat split; lra.
    + exists (py_max (window_size cleaned - (now - oldest)) 0).
      split; [reflexivity | split].
      * apply py_max_zero_spec.
      * rewrite Hw. apply py_max_Qmax.
  - intros E. unfold time_until_next_allowed. fold cleaned. simpl.
    rewrite E. reflexivity.
  - intros E. unfold time_until_next_allowed, _cleanup_window.
    rewrite E. simpl. rewrite E. reflexivity.
  - vm_compute. repeat split.
Qed.

Lemma time_until_next_allowed_spec_witness :
  let self := Build 10 1 {[ "u1" := [0] ]} in
  user_records self !! "u2" = None
  /\ time_until_next_allowed "u2" 5 self = (Some 0, self).
Proof.
  intros self.
  assert (H : user_records self !! "u2" = None) by reflexivity.
  split; [exact H |].
  exact (proj1 (proj2 (proj2 (time_until_next_allowed_spec "u2" 5 self))) H).
Defined.

(** A refused [record_message] is followed, at the same clock value, by a
    positive waiting time, provided the limiter allows at least one
    request per window. *)
Lemma rejection_wait_positive (user_id : string) (now : Q)
    (self : SlidingWindowRateLimiter) :
  (1 <= max_requests self)%Z ->
  fst (record_message user_id now self) = false ->
  exists wait,
    fst (time_until_next_allowed user_id now
           (snd (record_message user_id now self))) = Some wait
    /\ 0 < wait.
Proof.
  intros Hlimit Hrej.
  rewrite (record_message_spec user_id now self Hlimit) in Hrej |- *.
  set (cleaned := _cleanup_window user_id now self) in *.
  destruct (Z.of_nat (length (entries user_id cleaned)) <? max_requests self)%Z
    eqn:E; [discriminate |]. simpl.
  apply Z.ltb_ge in E.
  unfold time_until_next_allowed. subst cleaned. rewrite cleanup_idem.
  set (cleaned := _cleanup_window user_id now self) in *.
  assert (Hw : window_size cleaned = window_size self) by apply cleanup_config.
  simpl. unfold entries in E.
  destruct (cleanup_lookup_cases user_id now self)
    as [E' | (oldest & rest & E' & Hage)]; fold cleaned in E'; rewrite E' in *.
  - simpl in E. lia.
  - exists (py_max (window_size cleaned - (now - oldest)) 0).
    split; [reflexivity |].
    destruct (py_max_zero_spec (window_size cleaned - (now - oldest)))
      as (_ & Hpos & _).
    rewrite Hpos; rewrite Hw; lra.
Qed.

(** ** Sliding window: the waiting time over time *)

Lemma time_until_value (user_id : string) (now : Q)
    (self : SlidingWindowRateLimiter) :
  fst (time_until_next_allowed user_id now self)
  = Some (wait_of (window_size self) now
            (pop_expired (window_size self) now (entries user_id self)))
  /\ entries user_id (snd (time_until_next_allowed user_id now self))
     = pop_expired (window_size self) now (entries user_id self)
  /\ window_size (snd (time_until_next_allowed user_id now self))
     = window_size self.
Proof.
  rewrite <- cleanup_entries. unfold time_until_next_allowed, entries. simpl.
  split; [| split; [reflexivity | apply cleanup_config]].
  assert (Hw : window_size (_cleanup_window user_id now self) = window_size self)
    by apply cleanup_config.
  destruct (cleanup_lookup_cases user_id now self)
    as [E | (oldest & rest & E & Hage)]; rewrite E; simpl; [reflexivity |].
  rewrite Hw. reflexivity.
Qed.

(** With at most one stored entry the waiting time only goes down as the
    clock advances, and it is [0] from the moment the entry is
    [window_size] old. *)
Lemma single_entry_wait_decay (user_id : string) (t1 t2 : Q)
    (self : SlidingWindowRateLimiter) :
  (length (entries user_id self) <= 1)%nat ->
  t1 <= t2 ->
  exists w1 w2,
    fst (time_until_next_allowed user_id t1 self) = Some w1
    /\ fst (time_until_next_allowed user_id t2
              (snd (time_until_next_allowed user_id t1 self))) = Some w2
    /\ fst (time_until_next_allowed user_id t2 self) = Some w2
    /\ w2 <= w1
    /\ (Forall (fun t => t + window_size self <= t2) (entries user_id self) ->
        w2 == 0).
Proof.
  intros Hlen Hle.
  destruct (time_until_value user_id t1 self) as (V1 & S1 & W1).
  destruct (time_until_value user_id t2
              (snd (time_until_next_allowed user_id t1 self))) as (V2 & _ & _).
  destruct (time_until_value user_id t2 self) as (V3 & _ & _).
  rewrite S1, W1, pop_expired_later in V2 by exact Hle.
  eexists _, _. split; [exact V1 | split; [exact V2 | split; [exact V3 |]]].
  set (size := window_size self) in *.
  destruct (entries user_id self) as [| t [| t' rest]]; simpl in Hlen; [| | lia].
  - simpl. split; [lra | intros _; reflexivity].
  - simpl.
    destruct (Qle_bool size (t1 - t)) eqn:E1;
      destruct (Qle_bool size (t2 - t)) eqn:E2; simpl.
    + split; [lra | intros _; reflexivity].
    + apply Qle_bool_iff in E1. apply Qle_bool_false_iff in E2. lra.
    + apply Qle_bool_false_iff in E1.
      destruct (py_max_zero_spec (size - (t1 - t))) as (_ & _ & Hpos).
      split; [exact Hpos | intros _; reflexivity].
    + apply Qle_bool_false_iff in E1. apply Qle_bool_false_iff in E2.
      destruct (py_max_zero_spec (size - (t1 - t))) as (_ & H1 & _).
      destruct (py_max_zero_spec (size - (t2 - t))) as (_ & H2 & _).
      rewrite H1, H2 by lra. split; [lra |].
      intros Hall. apply Forall_cons_1 in Hall as [Hall _]. lra.
Qed.

(** C9, at the failing input.  Window of 10 seconds, two requests per
    window, records admitted at times 0 and 9.  The waiting time is 1/2
    at time 9.5 and 9 at time 10, although [can_send_message] answers
    [True] at time 10. *)
Theorem wait_grows_when_oldest_entry_expires :
  let fresh := Build 10 2 ∅ in
  let at0 := record_message "u1" 0 fresh in
  let at9 := record_message "u1" 9 (snd at0) in
  let wait_early := time_until_next_allowed "u1" (19 # 2) (snd at9) in
  let wait_late := time_until_next_allowed "u1" 10 (snd wait_early) in
  fst at0 = true /\ fst at9 = true
  /\ fst wait_early = Some (1 # 2)
  /\ fst wait_late = Some 9
  /\ fst (time_until_next_allowed "u1" 10 (snd at9)) = Some 9
  /\ (1 # 2) < 9
  /\ fst (can_send_message "u1" 10 (snd at9)) = true.
Proof. vm_compute. repeat split. Qed.

End SlidingWindowProofs.

(** ** Fixed interval *)

Module ThrottlingProofs.
Import Throttling ThrottlingTrace.

(** C4.  [can_send_message] answers [True] exactly when the identity has
    no stored timestamp or at least [min_interval] has passed since it,
    and changes nothing.  [record_message] returns [True] and stores its
    timestamp exactly when [can_send_message] answers [True]; otherwise it
    returns [False] and changes nothing.  With an interval of 10, after
    an admitted record at time 0, a check at 9.999 is refused, a check at
    10 is allowed, and a record at 10 is admitted. *)
Theorem throttling_admission (user_id : string) (now stamp : Q)
    (self : ThrottlingRateLimiter) :
  (fst (can_send_message user_id now self) = true
   <-> (user_last_timestamp self !! user_id = None
        \/ exists last,
             user_last_timestamp self !! user_id = Some last
             /\ min_interval self <= now - last))
  /\ snd (can_send_message user_id now self) = self
  /\ record_message user_id now stamp self
     = (if fst (can_send_message user_id now self)
        then (true, set_user_last_timestamp self
                      (<[user_id := stamp]> (user_last_timestamp self)))
        else (false, self))
  /\ (let fresh := Build 10 ∅ in
      let at0 := record_message "u2" 0 0 fresh in
      let at10 := record_message "u2" 10 10 (snd at0) in
      fst at0 = true
      /\ user_last_timestamp (snd at0) !! "u2" = Some 0
      /\ fst (can_send_message "u2" (9999 # 1000) (snd at0)) = false
      /\ fst (can_send_message "u2" 10 (snd at0)) = true
      /\ fst at10 = true
      /\ user_last_timestamp (snd at10) !! "u2" = Some 10).
Proof.
  split; [| split; [reflexivity | split]].
  - unfold can_send_message. simpl.
    destruct (user_last_timestamp self !! user_id) as [last |].
    + rewrite Qle_bool_iff. split.
      * intros H. right. exists last. auto.
      * intros [H | (last' & H & Hle)]; [discriminate |].
        injection H as ->. exact Hle.
    + split; auto.
  - unfold record_message, can_send_message. simpl.
    destruct (user_last_timestamp self !! user_id) as [last |]; [| reflexivity].
    destruct (Qle_bool _ _); reflexivity.
  - vm_compute. repeat split.
Qed.

Lemma throttling_time_until_value (user_id : string) (now : Q)
    (self : ThrottlingRateLimiter) :
  time_until_next_allowed user_id now self
  = (match user_last_timestamp self !! user_id with
     | None => 0
     | Some last => py_max (min_interval self - (now - last)) 0
     end, self).
Proof. reflexivity. Qed.

(** The waiting time is [0] for an identity without timestamp and the
    maximum of [0] and [min_interval - (now - last)] otherwise; it never
    goes up as the clock advances and is [0] from [last + min_interval]
    on. *)
Lemma throttling_wait_decay (user_id : string) (t1 t2 : Q)
    (self : ThrottlingRateLimiter) :
  (fst (time_until_next_allowed user_id t1 self)
   == match user_last_timestamp self !! user_id with
      | None => 0
      | Some last => Qmax 0 (min_interval self - (t1 - last))
      end)
  /\ snd (time_until_next_allowed user_id t1 self) = self
  /\ (t1 <= t2 ->
      fst (time_until_next_allowed user_id t2 self)
      <= fst (time_until_next_allowed user_id t1 self))
  /\ (forall last,
        user_last_timestamp self !! user_id = Some last ->
        last + min_interval self <= t1 ->
        fst (time_until_next_allowed user_id t1 self) == 0).
Proof.
  rewrite !throttling_time_until_value. simpl.
  destruct (user_last_timestamp self !! user_id) as [last |].
  - split; [apply py_max_Qmax | split; [reflexivity | split]].
    + intros Hle.
      destruct (py_max_zero_spec (min_interval self - (t1 - last)))
        as (A1 & B1 & C1).
      destruct (py_max_zero_spec (min_interval self - (t2 - last)))
        as (A2 & B2 & C2).
      destruct (Qlt_le_dec (min_interval self - (t2 - last)) 0) as [H | H].
      * rewrite A2 by lra. exact C1.
      * rewrite B2, B1 by lra. lra.
    + intros last' H Hle. injection H as <-.
      apply py_max_zero_spec. lra.
  - split; [reflexivity | split; [reflexivity | split]].
    + intros _. lra.
    + intros last H. discriminate.
Qed.

(** A refused [record_message] is followed, at the same clock value, by a
    positive waiting time. *)
Lemma throttling_rejection_wait_positive (user_id : string) (now stamp : Q)
    (self : ThrottlingRateLimiter) :
  fst (record_message user_id now stamp self) = false ->
  snd (record_message user_id now stamp self) = self
  /\ 0 < fst (time_until_next_allowed user_id now self).
Proof.
  unfold record_message, can_send_message, time_until_next_allowed. simpl.
  destruct (user_last_timestamp self !! user_id) as [last |]; [| discriminate].
  destruct (Qle_bool (min_interval self) (now - last)) eqn:E; [discriminate |].
  intros _. split; [reflexivity |]. apply Qle_bool_false_iff in E.
  destruct (py_max_zero_spec (min_interval self - (now - last))) as (_ & H & _).
  rewrite H; lra.
Qed.

End ThrottlingProofs.

(** ** Store lifecycle *)

Module SlidingWindowStore.
Import SlidingWindow SlidingWindowTrace SlidingWindowProofs.

Lemma perform_no_empty (now : Q) (c : call) (self : SlidingWindowRateLimiter) :
  (1 <= max_requests self)%Z ->
  no_empty_deque self -> no_empty_deque (perform now c self).
Proof.
  intros Hlimit Hclean other.
  destruct (decide (subject c = other)) as [Heq | Hne].
  - assert (Hcleaned :
        user_records (_cleanup_window other now self) !! other <> Some []).
    { destruct (cleanup_lookup_cases other now self)
        as [E | (oldest & rest & E & _)]; rewrite E; discriminate. }
    destruct c as [u | u | u]; simpl in Heq; subst u; simpl; try exact Hcleaned.
    rewrite (record_message_spec other now self Hlimit).
    destruct (_ <? _)%Z; simpl; [| exact Hcleaned].
    rewrite lookup_insert_eq. intros H. injection H as H.
    apply (f_equal (@length Q)) in H. rewrite length_app in H. simpl in H. lia.
  - rewrite perform_lookup_other by exact Hne. apply Hclean.
Qed.

Lemma run_no_empty (trace : list (Q * call)) :
  forall self : SlidingWindowRateLimiter,
    (1 <= max_requests self)%Z ->
    no_empty_deque self -> no_empty_deque (run trace self).
Proof.
  induction trace as [| [t c] rest IH]; intros self Hlimit Hclean; simpl.
  - exact Hclean.
  - apply IH.
    + destruct (perform_config t c self) as [_ ->]. exact Hlimit.
    + apply perform_no_empty; assumption.
Qed.

Lemma run_untouched (user_id : string) (trace : list (Q * call)) :
  forall self : SlidingWindowRateLimiter,
    Forall (fun e => subject (snd e) <> user_id) trace ->
    user_records (run trace self) !! user_id = user_records self !! user_id.
Proof.
  induction trace as [| [t c] rest IH]; intros self Hall; simpl.
  - reflexivity.
  - apply Forall_cons_1 in Hall as [Hc Hrest]. simpl in Hc.
    rewrite IH by exact Hrest. apply perform_lookup_other. exact Hc.
Qed.

(** Once every stored timestamp of the identity has aged out, cleanup
    removes the identity from the store. *)
Lemma cleanup_reclaims (user_id : string) (now : Q)
    (self : SlidingWindowRateLimiter) :
  Forall (expired (window_size self) now) (entries user_id self) ->
  user_records (_cleanup_window user_id now self) !! user_id = None.
Proof.
  intros Hall. rewrite cleanup_lookup. unfold entries in Hall.
  destruct (user_records self !! user_id) as [window |]; [| reflexivity].
  simpl in Hall.
  assert (H : pop_expired (window_size self) now window = []).
  { induction Hall as [| t rest Ht _ IH]; [reflexivity |].
    rewrite pop_expired_stale by exact Ht. exact IH. }
  rewrite H. reflexivity.
Qed.

End SlidingWindowStore.

Module ThrottlingStore.
Import Throttling ThrottlingTrace.

Lemma throttling_perform_config (now : Q) (c : call) (self : ThrottlingRateLimiter) :
  min_interval (perform now c self) = min_interval self.
Proof.
  destruct c as [u | u stamp | u]; simpl; try reflexivity.
  unfold record_message, can_send_message.
  destruct (user_last_timestamp self !! u) as [last |]; [| reflexivity].
  destruct (Qle_bool _ _); reflexivity.
Qed.

(** Only [record_message] on the identity itself can change its entry. *)
Lemma throttling_perform_lookup_other (now : Q) (c : call) (other : string)
    (self : ThrottlingRateLimiter) :
  records_for other c = false ->
  user_last_timestamp (perform now c self) !! other
  = user_last_timestamp self !! other.
Proof.
  destruct c as [u | u stamp | u]; simpl; try reflexivity.
  intros Hne. apply bool_decide_eq_false_1 in Hne.
  unfold record_message, can_send_message.
  destruct (user_last_timestamp self !! u) as [last |]; simpl.
  - destruct (Qle_bool _ _); simpl; [| reflexivity].
    apply lookup_insert_ne. exact Hne.
  - apply lookup_insert_ne. exact Hne.
Qed.

(** No call ever removes an entry. *)
Lemma perform_keeps (now : Q) (c : call) (other : string)
    (self : ThrottlingRateLimiter) :
  is_Some (user_last_timestamp self !! other) ->
  is_Some (user_last_timestamp (perform now c self) !! other).
Proof.
  intros Hsome.
  destruct (records_for other c) eqn:E.
  - destruct c as [u | u stamp | u]; simpl in E; try discriminate.
    apply bool_decide_eq_true_1 in E. subst u. simpl.
    unfold record_message, can_send_message.
    destruct (user_last_timestamp self !! other) as [last |] eqn:L; simpl.
    + destruct (Qle_bool _ _); simpl.
      * rewrite lookup_insert_eq. eauto.
      * rewrite L. eauto.
    + rewrite lookup_insert_eq. eauto.
  - rewrite throttling_perform_lookup_other by exact E. exact Hsome.
Qed.

Lemma run_keeps (other : string) (trace : list (Q * call)) :
  forall self : ThrottlingRateLimiter,
    is_Some (user_last_timestamp self !! other) ->
    is_Some (user_last_timestamp (run trace self) !! other).
Proof.
  induction trace as [| [t c] rest IH]; intros self Hsome; simpl.
  - exact Hsome.
  - apply IH, perform_keeps, Hsome.
Qed.

Lemma throttling_run_untouched (user_id : string) (trace : list (Q * call)) :
  forall self : ThrottlingRateLimiter,
    Forall (fun e => records_for user_id (snd e) = false) trace ->
    user_last_timestamp (run trace self) !! user_id
    = user_last_timestamp self !! user_id.
Proof.
  induction trace as [| [t c] rest IH]; intros self Hall; simpl.
  - reflexivity.
  - apply Forall_cons_1 in Hall as [Hc Hrest]. simpl in Hc.
    rewrite IH by exact Hrest. apply throttling_perform_lookup_other. exact Hc.
Qed.

End ThrottlingStore.

(** ** Both limiters *)

(** C5, as the code has it.  Neither constructor validates its arguments:
    every window size, request limit and interval is accepted, stored
    unchanged, and the limiter starts with an empty store. *)
Theorem construction_accepts_every_configuration
    (size interval : Q) (limit : Z) :
  SlidingWindow.__init__ size limit
  = Constructed (SlidingWindow.Build size limit ∅)
  /\ Throttling.__init__ interval = Constructed (Throttling.Build interval ∅).
Proof. split; reflexivity. Qed.

(** C5 fails: a window of 0 seconds with 0 requests, a negative window, and
    a zero or negative interval are all accepted by the constructors. *)
Lemma invalid_configuration_is_accepted :
  SlidingWindow.__init__ 0 0 = Constructed (SlidingWindow.Build 0 0 ∅)
  /\ SlidingWindow.__init__ 0 0 <> ConfigurationError
  /\ SlidingWindow.__init__ (-5) 3 <> ConfigurationError
  /\ SlidingWindow.__init__ 10 (-1) <> ConfigurationError
  /\ Throttling.__init__ 0 = Constructed (Throttling.Build 0 ∅)
  /\ Throttling.__init__ 0 <> ConfigurationError
  /\ Throttling.__init__ (-1) <> ConfigurationError.
Proof. repeat split; discriminate. Qed.

(** C6, as the code has it.  For an identity absent from the store,
    [can_send_message] and [time_until_next_allowed] answer [True] and [0]
    and leave the limiter exactly as it was, the identity still absent.
    The entry is created by [record_message]: on an absent identity it is
    admitted and stores the timestamp (for the sliding window, when the
    limiter allows at least one request per window). *)
Theorem state_is_created_by_record_message
    (user_id : string) (now stamp : Q)
    (sw : SlidingWindow.SlidingWindowRateLimiter)
    (th : Throttling.ThrottlingRateLimiter) :
  (SlidingWindow.user_records sw !! user_id = None ->
   SlidingWindow.can_send_message user_id now sw = (true, sw)
   /\ SlidingWindow.time_until_next_allowed user_id now sw = (Some 0, sw)
   /\ ((1 <= SlidingWindow.max_requests sw)%Z ->
       SlidingWindow.record_message user_id now sw
       = (true, SlidingWindow.set_user_records sw
                  (<[user_id := [now]]> (SlidingWindow.user_records sw)))))
  /\ (Throttling.user_last_timestamp th !! user_id = None ->
      Throttling.can_send_message user_id now th = (true, th)
      /\ Throttling.time_until_next_allowed user_id now th = (0, th)
      /\ Throttling.record_message user_id now stamp th
         = (true, Throttling.set_user_last_timestamp th
                    (<[user_id := stamp]> (Throttling.user_last_timestamp th)))).
Proof.
  split; intros E.
  - assert (Hclean : SlidingWindow._cleanup_window user_id now sw = sw).
    { unfold SlidingWindow._cleanup_window. rewrite E. reflexivity. }
    split; [| split].
    + unfold SlidingWindow.can_send_message. rewrite Hclean, E. reflexivity.
    + unfold SlidingWindow.time_until_next_allowed. rewrite Hclean, E. reflexivity.
    + intros Hlimit.
      rewrite (SlidingWindowProofs.record_message_spec user_id now sw Hlimit).
      rewrite Hclean. unfold SlidingWindowTrace.entries. rewrite E. simpl.
      assert (H : (Z.of_nat 0 <? SlidingWindow.max_requests sw)%Z = true)
        by (apply Z.ltb_lt; simpl; lia).
      rewrite H. reflexivity.
  - unfold Throttling.can_send_message, Throttling.time_until_next_allowed,
      Throttling.record_message. simpl. rewrite E. auto.
Qed.

Lemma state_is_created_by_record_message_witness :
  let sw := SlidingWindow.Build 10 1 ∅ in
  let th := Throttling.Build 10 ∅ in
  SlidingWindow.user_records sw !! "u1" = None
  /\ Throttling.user_last_timestamp th !! "u1" = None
  /\ SlidingWindow.can_send_message "u1" 0 sw = (true, sw)
  /\ Throttling.can_send_message "u1" 0 th = (true, th).
Proof.
  intros sw th.
  assert (H1 : SlidingWindow.user_records sw !! "u1" = None) by reflexivity.
  assert (H2 : Throttling.user_last_timestamp th !! "u1" = None) by reflexivity.
  split; [exact H1 | split; [exact H2 |]].
  destruct (state_is_created_by_record_message "u1" 0 0 sw th) as [Hsw Hth].
  split; [exact (proj1 (Hsw H1)) | exact (proj1 (Hth H2))].
Defined.

(** C6 fails: after [can_send_message] for a never-seen identity, the
    identity is still absent from the store of either limiter. *)
Lemma can_send_message_creates_no_entry :
  SlidingWindow.user_records
    (snd (SlidingWindow.can_send_message "u1" 0 (SlidingWindow.Build 10 1 ∅)))
    !! "u1" = None
  /\ Throttling.user_last_timestamp
       (snd (Throttling.can_send_message "u1" 0 (Throttling.Build 10 ∅)))
       !! "u1" = None.
Proof. split; reflexivity. Qed.

(** C7, as the code has it.  Sliding window, for a limiter that allows at
    least one request per window: no call leaves an identity mapped to an
    empty deque, so none is, after any sequence of calls from a fresh
    limiter; cleanup removes the identity once all its timestamps have aged
    out; and an identity no call was ever made for has no entry.  Fixed
    interval: no call ever removes an entry, however much time has passed,
    and an identity for which [record_message] was never called has no
    entry. *)
Theorem store_reclamation (user_id : string) (now : Q) :
  (forall (self : SlidingWindow.SlidingWindowRateLimiter)
          (c : SlidingWindowTrace.call),
      (1 <= SlidingWindow.max_requests self)%Z ->
      SlidingWindowTrace.no_empty_deque self ->
      SlidingWindowTrace.no_empty_deque (SlidingWindowTrace.perform now c self))
  /\ (forall (size : Q) (limit : Z) (trace : list (Q * SlidingWindowTrace.call)),
        (1 <= limit)%Z ->
        SlidingWindowTrace.no_empty_deque
          (SlidingWindowTrace.run trace (SlidingWindow.Build size limit ∅)))
  /\ (forall self : SlidingWindow.SlidingWindowRateLimiter,
        Forall (SlidingWindowTrace.expired (SlidingWindow.window_size self) now)
          (SlidingWindowTrace.entries user_id self) ->
        SlidingWindow.user_records
          (SlidingWindow._cleanup_window user_id now self) !! user_id = None)
  /\ (forall (size : Q) (limit : Z) (trace : list (Q * SlidingWindowTrace.call)),
        Forall (fun e => SlidingWindowTrace.subject (snd e) <> user_id) trace ->
        SlidingWindow.user_records
          (SlidingWindowTrace.run trace (SlidingWindow.Build size limit ∅))
          !! user_id = None)
  /\ (forall (self : Throttling.ThrottlingRateLimiter)
             (trace : list (Q * ThrottlingTrace.call)),
        is_Some (Throttling.user_last_timestamp self !! user_id) ->
        is_Some (Throttling.user_last_timestamp
                   (ThrottlingTrace.run trace self) !! user_id))
  /\ (forall (interval : Q) (trace : list (Q * ThrottlingTrace.call)),
        Forall (fun e => ThrottlingTrace.records_for user_id (snd e) = false)
          trace ->
        Throttling.user_last_timestamp
          (ThrottlingTrace.run trace (Throttling.Build interval ∅))
          !! user_id = None).
Proof.
  repeat split.
  - intros self c. apply SlidingWindowStore.perform_no_empty.
  - intros size limit trace Hlimit.
    apply SlidingWindowStore.run_no_empty; [exact Hlimit |].
    intros u. simpl. rewrite lookup_empty. discriminate.
  - intros self. apply SlidingWindowStore.cleanup_reclaims.
  - intros size limit trace Hall.
    rewrite SlidingWindowStore.run_untouched by exact Hall. apply lookup_empty.
  - intros self trace. apply ThrottlingStore.run_keeps.
  - intros interval trace Hall.
    rewrite ThrottlingStore.throttling_run_untouched by exact Hall.
    apply lookup_empty.
Qed.

Lemma store_reclamation_witness :
  let sw := SlidingWindow.Build 10 1 {[ "u1" := [0] ]} in
  let th := Throttling.Build 10 {[ "u2" := 0 ]} in
  let later := [(10, ThrottlingTrace.CanSend "u2");
                (20, ThrottlingTrace.TimeUntil "u2");
                (1000, ThrottlingTrace.RecordMessage "u9" 1000)] in
  Forall (SlidingWindowTrace.expired (SlidingWindow.window_size sw) 10)
    (SlidingWindowTrace.entries "u1" sw)
  /\ SlidingWindow.user_records (SlidingWindow._cleanup_window "u1" 10 sw)
       !! "u1" = None
  /\ is_Some (Throttling.user_last_timestamp th !! "u2")
  /\ is_Some (Throttling.user_last_timestamp (ThrottlingTrace.run later th)
                !! "u2").
Proof.
  intros sw th later.
  assert (H1 : Forall (SlidingWindowTrace.expired (SlidingWindow.window_size sw) 10)
                 (SlidingWindowTrace.entries "u1" sw)).
  { repeat constructor. unfold SlidingWindowTrace.expired. simpl. lra. }
  assert (H2 : is_Some (Throttling.user_last_timestamp th !! "u2")).
  { exists 0. reflexivity. }
  destruct (store_reclamation "u1" 10) as (_ & _ & Hsw & _).
  destruct (store_reclamation "u2" 10) as (_ & _ & _ & _ & Hth & _).
  split; [exact H1 | split; [exact (Hsw sw H1) | split; [exact H2 |]]].
  exact (Hth th later H2).
Defined.

(** C7 fails for the fixed interval: after a record at time 0 with an
    interval of 10, calls at times 10, 20 and 1000 find the identity
    allowed to send, and its timestamp is still in the store. *)
Lemma throttling_entry_is_never_deleted :
  let fresh := Throttling.Build 10 ∅ in
  let recorded := snd (Throttling.record_message "u2" 0 0 fresh) in
  let later := ThrottlingTrace.run
                 [(10, ThrottlingTrace.CanSend "u2");
                  (20, ThrottlingTrace.TimeUntil "u2");
                  (1000, ThrottlingTrace.CanSend "u2")] recorded in
  fst (Throttling.can_send_message "u2" 10 recorded) = true
  /\ Throttling.user_last_timestamp later !! "u2" = Some 0.
Proof. vm_compute. split; reflexivity. Qed.

(** C8, as the code has it.  A [record_message] call that returns [False]
    is followed, at the same clock value, by a strictly positive
    [time_until_next_allowed]: for the sliding window when the limiter
    allows at least one request per window, and for the fixed interval
    always. *)
Theorem rejection_reports_positive_wait
    (user_id : string) (now stamp : Q)
    (sw : SlidingWindow.SlidingWindowRateLimiter)
    (th : Throttling.ThrottlingRateLimiter) :
  ((1 <= SlidingWindow.max_requests sw)%Z ->
   fst (SlidingWindow.record_message user_id now sw) = false ->
   exists wait,
     fst (SlidingWindow.time_until_next_allowed user_id now
            (snd (SlidingWindow.record_message user_id now sw))) = Some wait
     /\ 0 < wait)
  /\ (fst (Throttling.record_message user_id now stamp th) = false ->
      0 < fst (Throttling.time_until_next_allowed user_id now
                 (snd (Throttling.record_message user_id now stamp th)))).
Proof.
  split.
  - apply SlidingWindowProofs.rejection_wait_positive.
  - intros Hrej.
    destruct (ThrottlingProofs.throttling_rejection_wait_positive
                user_id now stamp th Hrej) as [-> Hpos].
    exact Hpos.
Qed.

Lemma rejection_reports_positive_wait_witness :
  let sw := SlidingWindow.Build 10 1 {[ "u1" := [0] ]} in
  let th := Throttling.Build 10 {[ "u1" := 0 ]} in
  (1 <= SlidingWindow.max_requests sw)%Z
  /\ fst (SlidingWindow.record_message "u1" 5 sw) = false
  /\ fst (Throttling.record_message "u1" 5 5 th) = false
  /\ (exists wait,
        fst (SlidingWindow.time_until_next_allowed "u1" 5
               (snd (SlidingWindow.record_message "u1" 5 sw))) = Some wait
        /\ 0 < wait)
  /\ 0 < fst (Throttling.time_until_next_allowed "u1" 5
                (snd (Throttling.record_message "u1" 5 5 th))).
Proof.
  intros sw th.
  assert (H1 : (1 <= SlidingWindow.max_requests sw)%Z) by (simpl; lia).
  assert (H2 : fst (SlidingWindow.record_message "u1" 5 sw) = false)
    by reflexivity.
  assert (H3 : fst (Throttling.record_message "u1" 5 5 th) = false)
    by reflexivity.
  destruct (rejection_reports_positive_wait "u1" 5 5 sw th) as [Hsw Hth].
  split; [exact H1 | split; [exact H2 | split; [exact H3 |]]].
  split; [exact (Hsw H1 H2) | exact (Hth H3)].
Defined.

(** C8 fails for a sliding window built with [max_requests = 0], which the
    constructor accepts: a record for a never-seen identity is refused, an
    empty deque is left behind, and the waiting time reported at the same
    clock value is [0], not a positive number. *)
Example zero_limit_rejection :
  let sw := SlidingWindow.Build 10 0 ∅ in
  fst (SlidingWindow.record_message "u1" 5 sw) = false
  /\ SlidingWindow.user_records (snd (SlidingWindow.record_message "u1" 5 sw))
       !! "u1" = Some []
  /\ fst (SlidingWindow.time_until_next_allowed "u1" 5
            (snd (SlidingWindow.record_message "u1" 5 sw))) = Some 0.
Proof. vm_compute. repeat split. Qed.

(** C10.  A call made for one identity leaves the entry of every other
    identity as it was, in both limiters and for each of the three
    methods. *)
Theorem calls_touch_one_identity
    (user_id other : string) (now stamp : Q)
    (sw : SlidingWindow.SlidingWindowRateLimiter)
    (th : Throttling.ThrottlingRateLimiter) :
  user_id <> other ->
  (SlidingWindow.user_records
     (snd (SlidingWindow.can_send_message user_id now sw)) !! other
   = SlidingWindow.user_records sw !! other
   /\ SlidingWindow.user_records
        (snd (SlidingWindow.record_message user_id now sw)) !! other
      = SlidingWindow.user_records sw !! other
   /\ SlidingWindow.user_records
        (snd (SlidingWindow.time_until_next_allowed user_id now sw)) !! other
      = SlidingWindow.user_records sw !! other)
  /\ (Throttling.user_last_timestamp
        (snd (Throttling.can_send_message user_id now th)) !! other
      = Throttling.user_last_timestamp th !! other
      /\ Throttling.user_last_timestamp
           (snd (Throttling.record_message user_id now stamp th)) !! other
         = Throttling.user_last_timestamp th !! other
      /\ Throttling.user_last_timestamp
           (snd (Throttling.time_until_next_allowed user_id now th)) !! other
         = Throttling.user_last_timestamp th !! other).
Proof.
  intros Hne. split; [split; [| split] | split; [| split]].
  - exact (SlidingWindowProofs.perform_lookup_other now
             (SlidingWindowTrace.CanSend user_id) other sw Hne).
  - exact (SlidingWindowProofs.perform_lookup_other now
             (SlidingWindowTrace.RecordMessage user_id) other sw Hne).
  - exact (SlidingWindowProofs.perform_lookup_other now
             (SlidingWindowTrace.TimeUntil user_id) other sw Hne).
  - reflexivity.
  - apply (ThrottlingStore.throttling_perform_lookup_other now
             (ThrottlingTrace.RecordMessage user_id stamp) other th).
    simpl. apply bool_decide_eq_false_2. exact Hne.
  - reflexivity.
Qed.

Lemma calls_touch_one_identity_witness :
  let sw := SlidingWindow.Build 10 1 {[ "u1" := [0]; "u2" := [1] ]} in
  "u1" <> "u2"
  /\ SlidingWindow.user_records
       (snd (SlidingWindow.record_message "u1" 10 sw)) !! "u2" = Some [1].
Proof.
  intros sw.
  assert (H : "u1" <> "u2") by discriminate.
  split; [exact H |].
  exact (proj1 (proj2 (proj1
    (calls_touch_one_identity "u1" "u2" 10 10 sw (Throttling.Build 10 ∅) H)))).
Defined.

(** * Further properties of the two classes *)

(** ** Sliding window: how the methods compose *)

Module SlidingWindowLaws.
Import SlidingWindow SlidingWindowTrace SlidingWindowCalls SlidingWindowProofs.

(** At one clock value [can_send_message] predicts [record_message], for a
    limiter that allows at least one request per window. *)
Theorem can_send_predicts_record (user_id : string) (now : Q)
    (self : SlidingWindowRateLimiter) :
  (1 <= max_requests self)%Z ->
  fst (can_send_message user_id now self)
  = fst (record_message user_id now self).
Proof.
  intros Hlimit. rewrite (record_message_spec user_id now self Hlimit).
  unfold can_send_message, entries. simpl.
  assert (Hmax : max_requests (_cleanup_window user_id now self)
                 = max_requests self) by apply cleanup_config.
  destruct (user_records (_cleanup_window user_id now self) !! user_id)
    as [window |]; simpl.
  - rewrite Hmax. destruct (_ <? _)%Z; reflexivity.
  - assert (H : (Z.of_nat 0 <? max_requests self)%Z = true)
      by (apply Z.ltb_lt; simpl; lia).
    rewrite H. reflexivity.
Qed.

Lemma can_send_predicts_record_witness :
  let self := Build 10 2 {[ "u1" := [0; 3] ]} in
  (1 <= max_requests self)%Z
  /\ fst (can_send_message "u1" 5 self) = fst (record_message "u1" 5 self).
Proof.
  intros self.
  assert (H : (1 <= max_requests self)%Z) by (simpl; lia).
  split; [exact H | exact (can_send_predicts_record "u1" 5 self H)].
Defined.

Lemma cleanup_present (user_id : string) (now : Q) (window : list Q)
    (self : SlidingWindowRateLimiter) :
  user_records self !! user_id = Some window ->
  _cleanup_window user_id now self
  = match pop_expired (window_size self) now window with
    | [] => set_user_records self (delete user_id (user_records self))
    | window' =>
        set_user_records self (<[user_id := window']> (user_records self))
    end.
Proof. intros E. unfold _cleanup_window. rewrite E. reflexivity. Qed.

Lemma cleanup_absent (user_id : string) (now : Q)
    (self : SlidingWindowRateLimiter) :
  user_records self !! user_id = None ->
  _cleanup_window user_id now self = self.
Proof. intros E. unfold _cleanup_window. rewrite E. reflexivity. Qed.

Lemma cleanup_later (user_id : string) (t1 t2 : Q)
    (self : SlidingWindowRateLimiter) :
  t1 <= t2 ->
  _cleanup_window user_id t2 (_cleanup_window user_id t1 self)
  = _cleanup_window user_id t2 self.
Proof.
  intros Hle.
  destruct (user_records self !! user_id) as [window |] eqn:E.
  - rewrite (cleanup_present user_id t1 window self E).
    rewrite (cleanup_present user_id t2 window self E).
    rewrite <- (pop_expired_later (window_size self) t1 t2 window Hle).
    destruct (pop_expired (window_size self) t1 window) as [| t rest].
    + change (pop_expired (window_size self) t2 []) with (@nil Q).
      apply cleanup_absent. simpl. apply lookup_delete_eq.
    + rewrite (cleanup_present user_id t2 (t :: rest)) by apply lookup_insert_eq.
      change (window_size (set_user_records self
                (<[user_id := t :: rest]> (user_records self))))
        with (window_size self).
      destruct (pop_expired (window_size self) t2 (t :: rest));
        unfold set_user_records; cbn [window_size max_requests user_records].
      * rewrite delete_insert_eq. reflexivity.
      * rewrite insert_insert_eq. reflexivity.
  - rewrite (cleanup_absent user_id t1 self E). reflexivity.
Qed.

(** A query made for an identity at some clock value changes the outcome
    of no later call for that identity: [can_send_message] and
    [time_until_next_allowed] only perform the cleanup that the later call
    would perform itself. *)
Theorem queries_leave_later_calls_unchanged (user_id : string) (t1 t2 : Q)
    (self : SlidingWindowRateLimiter) :
  t1 <= t2 ->
  let asked := snd (can_send_message user_id t1 self) in
  asked = snd (time_until_next_allowed user_id t1 self)
  /\ can_send_message user_id t2 asked = can_send_message user_id t2 self
  /\ record_message user_id t2 asked = record_message user_id t2 self
  /\ time_until_next_allowed user_id t2 asked
     = time_until_next_allowed user_id t2 self.
Proof.
  intros Hle asked. subst asked. simpl.
  unfold can_send_message, record_message, time_until_next_allowed.
  rewrite (cleanup_later user_id t1 t2 self Hle). auto.
Qed.

Lemma queries_leave_later_calls_unchanged_witness :
  let self := Build 10 2 {[ "u1" := [0; 3] ]} in
  11 <= 12
  /\ record_message "u1" 12 (snd (can_send_message "u1" 11 self))
     = record_message "u1" 12 self.
Proof.
  intros self.
  assert (H : 11 <= 12) by lra.
  split; [exact H |].
  exact (proj1 (proj2 (proj2
    (queries_leave_later_calls_unchanged "u1" 11 12 self H)))).
Defined.

(** ** Sliding window: the waiting time and the admission test *)

Lemma wait_after_cleanup (user_id : string) (now : Q)
    (self : SlidingWindowRateLimiter) :
  match user_records (_cleanup_window user_id now self) !! user_id with
  | None => fst (time_until_next_allowed user_id now self) = Some 0
  | Some window =>
      exists oldest rest,
        window = oldest :: rest
        /\ fst (time_until_next_allowed user_id now self)
           = Some (window_size self - (now - oldest))
        /\ 0 < window_size self - (now - oldest)
  end.
Proof.
  unfold time_until_next_allowed. simpl.
  assert (Hw : window_size (_cleanup_window user_id now self) = window_size self)
    by apply cleanup_config.
  destruct (cleanup_lookup_cases user_id now self)
    as [E | (oldest & rest & E & Hage)]; rewrite E; [reflexivity |].
  exists oldest, rest. rewrite Hw.
  destruct (py_max_zero_spec (window_size self - (now - oldest)))
    as (_ & Hpos & _).
  rewrite Hpos by lra. repeat split. lra.
Qed.

(** [max(wait, 0.0)] never clips: the method returns [0] only when cleanup
    leaves no entry for the identity; otherwise it returns
    [window_size - (now - oldest)] itself, which is strictly positive. *)
Theorem wait_is_zero_only_without_entry (user_id : string) (now : Q)
    (self : SlidingWindowRateLimiter) :
  match user_records (_cleanup_window user_id now self) !! user_id with
  | None => fst (time_until_next_allowed user_id now self) = Some 0
  | Some window =>
      exists oldest rest,
        window = oldest :: rest
        /\ fst (time_until_next_allowed user_id now self)
           = Some (window_size self - (now - oldest))
        /\ 0 < window_size self - (now - oldest)
  end.
Proof.
  unfold time_until_next_allowed. simpl.
  assert (Hw : window_size (_cleanup_window user_id now self) = window_size self)
    by apply cleanup_config.
  destruct (cleanup_lookup_cases user_id now self)
    as [E | (oldest & rest & E & Hage)]; rewrite E; [reflexivity |].
  exists oldest, rest. rewrite Hw.
  destruct (py_max_zero_spec (window_size self - (now - oldest)))
    as (_ & Hpos & _).
  rewrite Hpos by lra. repeat split. lra.
Qed.

(** A waiting time of [0] means [can_send_message] answers [True]; when
    the limiter allows exactly one request per window the two are
    equivalent. *)
Theorem zero_wait_means_allowed (user_id : string) (now : Q)
    (self : SlidingWindowRateLimiter) :
  (fst (time_until_next_allowed user_id now self) = Some 0 ->
   fst (can_send_message user_id now self) = true)
  /\ (max_requests self = 1%Z ->
      (fst (can_send_message user_id now self) = true
       <-> fst (time_until_next_allowed user_id now self) = Some 0)).
Proof.
  pose proof (wait_after_cleanup user_id now self) as Hwait.
  assert (Hmax : max_requests (_cleanup_window user_id now self)
                 = max_requests self) by apply cleanup_config.
  unfold can_send_message. cbn [fst].
  destruct (user_records (_cleanup_window user_id now self) !! user_id)
    as [window |].
  - destruct Hwait as (oldest & rest & -> & Hval & Hpos).
    assert (Hnot : fst (time_until_next_allowed user_id now self) <> Some 0).
    { rewrite Hval. intros H. apply (inj Some) in H. rewrite H in Hpos. lra. }
    split; [intros H; exfalso; apply Hnot; exact H |].
    intros Hone. rewrite Hmax, Hone.
    split; [| intros H; exfalso; apply Hnot; exact H].
    intros H. apply Z.ltb_lt in H. simpl in H. lia.
  - split; [reflexivity |]. intros _. split; auto.
Qed.

Lemma zero_wait_means_allowed_witness :
  let self := Build 10 1 {[ "u1" := [0] ]} in
  max_requests self = 1%Z
  /\ fst (time_until_next_allowed "u1" 12 self) = Some 0
  /\ fst (can_send_message "u1" 12 self) = true.
Proof.
  intros self.
  assert (H1 : max_requests self = 1%Z) by reflexivity.
  assert (H2 : fst (time_until_next_allowed "u1" 12 self) = Some 0)
    by reflexivity.
  split; [exact H1 | split; [exact H2 |]].
  exact (proj1 (zero_wait_means_allowed "u1" 12 self) H2).
Defined.

(** After a refused [record_message] the reported waiting time is exact,
    provided the deque holds no more than [max_requests] entries (which
    every call keeps true) and the limit is at least one: a later
    [record_message] for the identity is admitted exactly when at least
    that much time has passed. *)
Theorem wait_after_refusal_is_exact (user_id : string) (now : Q)
    (self : SlidingWindowRateLimiter) :
  (1 <= max_requests self)%Z ->
  (Z.of_nat (length (entries user_id self)) <= max_requests self)%Z ->
  fst (record_message user_id now self) = false ->
  let refused := snd (record_message user_id now self) in
  exists wait,
    fst (time_until_next_allowed user_id now refused) = Some wait
    /\ 0 < wait
    /\ forall later,
         fst (record_message user_id later refused) = true
         <-> now + wait <= later.
Proof.
  intros Hlimit Hlen Hrej refused. subst refused.
  rewrite (record_message_spec user_id now self Hlimit) in Hrej |- *.
  set (cleaned := _cleanup_window user_id now self) in *.
  destruct (Z.of_nat (length (entries user_id cleaned)) <? max_requests self)%Z
    eqn:Hfull; [discriminate |]. simpl. clear Hrej.
  apply Z.ltb_ge in Hfull.
  assert (Hw : window_size cleaned = window_size self) by apply cleanup_config.
  assert (Hm : max_requests cleaned = max_requests self) by apply cleanup_config.
  assert (Hshrunk : (length (entries user_id cleaned)
                     <= length (entries user_id self))%nat).
  { subst cleaned. rewrite cleanup_entries. apply pop_expired_length. }
  pose proof (wait_after_cleanup user_id now cleaned) as Hwait.
  subst cleaned. rewrite cleanup_idem in Hwait.
  set (cleaned := _cleanup_window user_id now self) in *.
  unfold entries in Hfull, Hshrunk, Hlen.
  destruct (user_records cleaned !! user_id) as [window |] eqn:E;
    [| simpl in Hfull; lia].
  destruct Hwait as (oldest & rest & -> & Hval & Hpos).
  rewrite Hw in Hval, Hpos. simpl in Hfull, Hshrunk.
  exists (window_size self - (now - oldest)).
  split; [exact Hval | split; [exact Hpos |]].
  intros later.
  pose proof (record_message_entries user_id later cleaned) as Hrec.
  simpl in Hrec. rewrite Hw, Hm in Hrec.
  unfold entries in Hrec. rewrite E in Hrec. simpl in Hrec.
  destruct (Qle_bool (window_size self) (later - oldest)) eqn:Hold.
  - apply Qle_bool_iff in Hold.
    pose proof (pop_expired_length (window_size self) later rest) as Hrest.
    assert (Hroom : (Z.of_nat (length (pop_expired (window_size self) later rest))
                     <? max_requests self)%Z = true)
      by (apply Z.ltb_lt; lia).
    rewrite Hroom in Hrec. destruct Hrec as [-> _].
    split; [intros _; lra | reflexivity].
  - apply Qle_bool_false_iff in Hold.
    assert (Hroom : (Z.of_nat (length (oldest :: rest))
                     <? max_requests self)%Z = false)
      by (apply Z.ltb_ge; simpl; lia).
    rewrite Hroom in Hrec. destruct Hrec as [-> _].
    split; [discriminate | intros H; lra].
Qed.

Lemma wait_after_refusal_is_exact_witness :
  let self := Build 10 2 {[ "u1" := [0; 3] ]} in
  (1 <= max_requests self)%Z
  /\ (Z.of_nat (length (entries "u1" self)) <= max_requests self)%Z
  /\ fst (record_message "u1" 4 self) = false
  /\ exists wait,
       fst (time_until_next_allowed "u1" 4
              (snd (record_message "u1" 4 self))) = Some wait
       /\ 0 < wait
       /\ forall later,
            fst (record_message "u1" later
                   (snd (record_message "u1" 4 self))) = true
            <-> 4 + wait <= later.
Proof.
  intros self.
  assert (H1 : (1 <= max_requests self)%Z) by (simpl; lia).
  assert (H2 : (Z.of_nat (length (entries "u1" self)) <= max_requests self)%Z)
    by (vm_compute; discriminate).
  assert (H3 : fst (record_message "u1" 4 self) = false) by reflexivity.
  split; [exact H1 | split; [exact H2 | split; [exact H3 |]]].
  exact (wait_after_refusal_is_exact "u1" 4 self H1 H2 H3).
Defined.

(** ** Sliding window: degenerate configurations *)

Lemma pop_expired_all (size now : Q) (window : list Q) :
  Forall (expired size now) window -> pop_expired size now window = [].
Proof.
  induction 1 as [| t rest Ht _ IH]; [reflexivity |].
  rewrite pop_expired_stale by exact Ht. exact IH.
Qed.

Lemma admitted_without_limit (user_id : string) (trace : list (Q * call)) :
  forall self : SlidingWindowRateLimiter,
    (max_requests self <= 0)%Z -> admitted user_id trace self = [].
Proof.
  induction trace as [| [t c] rest IH]; intros self Hlimit; [reflexivity |].
  simpl. rewrite IH by (destruct (perform_config t c self) as [_ ->]; exact Hlimit).
  rewrite app_nil_r.
  destruct c as [u | u | u]; simpl; try reflexivity.
  pose proof (record_message_entries u t self) as Hrec. simpl in Hrec.
  destruct (_ <? _)%Z eqn:E in Hrec.
  - apply Z.ltb_lt in E. lia.
  - destruct Hrec as [-> _]. rewrite andb_false_r. reflexivity.
Qed.

(** A limiter built with [max_requests <= 0] never admits anything:
    [record_message] returns [False] for every identity at every clock
    value, along any call sequence.  For an identity absent from the store
    [can_send_message] nevertheless answers [True], and the refused
    [record_message] leaves an empty deque behind. *)
Theorem nonpositive_limit_never_admits (user_id : string)
    (self : SlidingWindowRateLimiter) :
  (max_requests self <= 0)%Z ->
  (forall now, fst (record_message user_id now self) = false)
  /\ (forall trace, admitted user_id trace self = [])
  /\ (user_records self !! user_id = None ->
      forall now,
        fst (can_send_message user_id now self) = true
        /\ user_records (snd (record_message user_id now self)) !! user_id
           = Some []).
Proof.
  intros Hlimit. split; [| split].
  - intros now.
    pose proof (record_message_entries user_id now self) as Hrec. simpl in Hrec.
    destruct (_ <? _)%Z eqn:E in Hrec.
    + apply Z.ltb_lt in E. lia.
    + tauto.
  - intros trace. apply admitted_without_limit. exact Hlimit.
  - intros E now. unfold can_send_message, record_message.
    rewrite (cleanup_absent user_id now self E), E. unfold record_into. simpl.
    assert (H : (Z.of_nat 0 <? max_requests self)%Z = false)
      by (apply Z.ltb_ge; simpl; lia).
    rewrite H. simpl. rewrite lookup_insert_eq. auto.
Qed.

Lemma nonpositive_limit_never_admits_witness :
  let self := Build 10 0 ∅ in
  (max_requests self <= 0)%Z
  /\ fst (record_message "u1" 5 self) = false
  /\ fst (can_send_message "u1" 5 self) = true.
Proof.
  intros self.
  assert (H : (max_requests self <= 0)%Z) by (simpl; lia).
  destruct (nonpositive_limit_never_admits "u1" self H) as (Hrec & _ & Habs).
  split; [exact H | split; [exact (Hrec 5) |]].
  exact (proj1 (Habs (lookup_empty "u1") 5)).
Defined.

(** With [window_size <= 0] the limiter never refuses: whenever no stored
    timestamp of the identity is later than the clock, every entry has
    already aged out, [record_message] is admitted and the deque afterwards
    holds the new timestamp alone. *)
Theorem nonpositive_window_never_refuses (user_id : string) (now : Q)
    (self : SlidingWindowRateLimiter) :
  window_size self <= 0 ->
  (1 <= max_requests self)%Z ->
  Forall (fun t => t <= now) (entries user_id self) ->
  fst (record_message user_id now self) = true
  /\ entries user_id (snd (record_message user_id now self)) = [now].
Proof.
  intros Hsize Hlimit Hpast.
  pose proof (record_message_entries user_id now self) as Hrec. simpl in Hrec.
  rewrite pop_expired_all in Hrec.
  - assert (H : (Z.of_nat (length (@nil Q)) <? max_requests self)%Z = true)
      by (apply Z.ltb_lt; simpl; lia).
    rewrite H in Hrec. exact Hrec.
  - eapply Forall_impl; [exact Hpast |]. unfold expired. simpl. intros t Ht. lra.
Qed.

Lemma nonpositive_window_never_refuses_witness :
  let self := Build 0 1 {[ "u1" := [5] ]} in
  window_size self <= 0
  /\ (1 <= max_requests self)%Z
  /\ Forall (fun t => t <= 5) (entries "u1" self)
  /\ fst (record_message "u1" 5 self) = true.
Proof.
  intros self.
  assert (H1 : window_size self <= 0) by (simpl; lra).
  assert (H2 : (1 <= max_requests self)%Z) by (simpl; lia).
  assert (H3 : Forall (fun t => t <= 5) (entries "u1" self)).
  { repeat constructor. lra. }
  split; [exact H1 | split; [exact H2 | split; [exact H3 |]]].
  exact (proj1 (nonpositive_window_never_refuses "u1" 5 self H1 H2 H3)).
Defined.

(** ** Sliding window: whole call sequences *)

Lemma clock_from_start (trace : list (Q * call)) (now : Q) :
  nondecreasing (map fst trace ++ [now]) ->
  exists clock, clock_from clock (map fst trace ++ [now]).
Proof.
  destruct trace as [| [t c] rest]; simpl; intros Hclock.
  - exists now. split; [lra | exact I].
  - exists t. split; [lra | exact Hclock].
Qed.

Lemma fresh_history (size : Q) (limit : Z) (trace : list (Q * call))
    (user_id : string) (now : Q) :
  (0 <= limit)%Z ->
  nondecreasing (map fst trace ++ [now]) ->
  history_ok size now limit (admitted user_id trace (Build size limit ∅))
    (entries user_id (run trace (Build size limit ∅))).
Proof.
  intros Hlimit Hclock.
  destruct (clock_from_start trace now Hclock) as [clock Hfrom].
  apply (run_history user_id now trace clock (Build size limit ∅) [] Hfrom).
  simpl. apply history_ok_empty. exact Hlimit.
Qed.

Lemma entries_without_limit (user_id : string) (trace : list (Q * call)) :
  forall self : SlidingWindowRateLimiter,
    (max_requests self <= 0)%Z ->
    entries user_id self = [] ->
    entries user_id (run trace self) = [].
Proof.
  induction trace as [| [t c] rest IH]; intros self Hlimit Hempty; [exact Hempty |].
  simpl. apply IH.
  - destruct (perform_config t c self) as [_ ->]. exact Hlimit.
  - destruct (decide (subject c = user_id)) as [Heq | Hne].
    + destruct c as [u | u | u]; simpl in Heq; subst u; simpl.
      * rewrite cleanup_entries, Hempty. reflexivity.
      * pose proof (record_message_entries user_id t self) as Hrec.
        simpl in Hrec. rewrite Hempty in Hrec. simpl in Hrec.
        destruct (_ <? _)%Z eqn:E in Hrec; [apply Z.ltb_lt in E; lia |].
        tauto.
      * rewrite cleanup_entries, Hempty. reflexivity.
    + unfold entries. rewrite perform_lookup_other by exact Hne. exact Hempty.
Qed.

(** Along any call sequence with a clock that never goes back, run from a
    fresh limiter, every stored deque is in chronological order and holds
    no timestamp later than the clock. *)
Theorem deque_is_chronological (size : Q) (limit : Z)
    (trace : list (Q * call)) (user_id : string) (now : Q) :
  nondecreasing (map fst trace ++ [now]) ->
  StronglySorted Qle (entries user_id (run trace (Build size limit ∅)))
  /\ Forall (fun t => t <= now)
       (entries user_id (run trace (Build size limit ∅))).
Proof.
  intros Hclock.
  destruct (Z_le_gt_dec 0 limit) as [Hlimit | Hlimit].
  - destruct (fresh_history size limit trace user_id now Hlimit Hclock)
      as (Hsorted & Hpast & (dropped & Heq & _) & _).
    rewrite Heq in Hsorted, Hpast. split.
    + exact (StronglySorted_app_r _ _ Hsorted).
    + apply Forall_app in Hpast. tauto.
  - rewrite entries_without_limit.
    + split; constructor.
    + simpl. lia.
    + reflexivity.
Qed.

Lemma deque_is_chronological_witness :
  let trace := [(0, RecordMessage "u3"); (1, RecordMessage "u3");
                (1, CanSend "u7"); (2, RecordMessage "u3")] in
  nondecreasing (map fst trace ++ [3])
  /\ StronglySorted Qle (entries "u3" (run trace (Build 10 3 ∅))).
Proof.
  intros trace.
  assert (H : nondecreasing (map fst trace ++ [3])).
  { simpl. repeat split; lra. }
  split; [exact H |].
  exact (proj1 (deque_is_chronological 10 3 trace "u3" 3 H)).
Defined.

Lemma filter_length_le (keep more : Q -> bool) (stamps : list Q) :
  Forall (fun t => keep t = true -> more t = true) stamps ->
  (length (List.filter keep stamps) <= length (List.filter more stamps))%nat.
Proof.
  induction 1 as [| t rest Ht _ IH]; simpl; [lia |].
  destruct (keep t) eqn:K.
  - rewrite (Ht eq_refl). simpl. lia.
  - destruct (more t); simpl; lia.
Qed.

Lemma rate_ok_append (size now : Q) (limit : Z) (history stored : list Q) :
  history_ok size now limit history stored ->
  (Z.of_nat (length (pop_expired size now stored)) < limit)%Z ->
  rate_ok size limit history ->
  rate_ok size limit (history ++ [now]).
Proof.
  intros Hinv Hroom Hrate clock. unfold window_count.
  rewrite List.filter_app, length_app. simpl.
  destruct (in_window size clock now) eqn:Hin; simpl.
  - rewrite (history_ok_window _ _ _ _ _ Hinv) in Hroom.
    assert (Hsub : (length (List.filter (in_window size clock) history)
                    <= length (List.filter (in_window size now) history))%nat).
    { apply filter_length_le.
      destruct Hinv as (_ & Hpast & _).
      eapply Forall_impl; [exact Hpast |]. simpl. intros t Ht Hclock.
      unfold in_window in *.
      apply andb_true_iff in Hin as [Hin1 Hin2].
      apply andb_true_iff in Hclock as [Hc1 Hc2].
      apply Qlt_bool_iff in Hin1, Hc1. apply Qle_bool_iff in Hin2, Hc2.
      apply andb_true_iff. split.
      - apply Qlt_bool_iff. lra.
      - apply Qle_bool_iff. exact Ht. }
    lia.
  - specialize (Hrate clock). unfold window_count in Hrate. lia.
Qed.

Lemma perform_rate (user_id : string) (clock now : Q) (c : call)
    (self : SlidingWindowRateLimiter) (history : list Q) :
  clock <= now ->
  history_ok (window_size self) clock (max_requests self) history
    (entries user_id self) ->
  rate_ok (window_size self) (max_requests self) history ->
  rate_ok (window_size self) (max_requests self)
    (history ++ (if admits user_id now c self then [now] else [])).
Proof.
  intros Hle Hinv Hrate.
  destruct (admits user_id now c self) eqn:A; [| rewrite app_nil_r; exact Hrate].
  destruct c as [u | u | u]; simpl in A; try discriminate.
  apply andb_true_iff in A as [Hu Hadm].
  apply bool_decide_eq_true_1 in Hu. subst u.
  apply (history_ok_later _ _ _ _ _ _ Hle) in Hinv.
  apply (rate_ok_append _ _ _ _ _ Hinv); [| exact Hrate].
  pose proof (record_message_entries user_id now self) as Hrec. simpl in Hrec.
  destruct (_ <? _)%Z eqn:E in Hrec.
  - apply Z.ltb_lt in E. exact E.
  - destruct Hrec as [Hrec _]. congruence.
Qed.

Lemma run_rate (user_id : string) (trace : list (Q * call)) :
  forall (clock : Q) (self : SlidingWindowRateLimiter) (history : list Q),
    clock_from clock (map fst trace) ->
    history_ok (window_size self) clock (max_requests self) history
      (entries user_id self) ->
    rate_ok (window_size self) (max_requests self) history ->
    rate_ok (window_size self) (max_requests self)
      (history ++ admitted user_id trace self).
Proof.
  induction trace as [| [t c] rest IH];
    intros clock self history Hclock Hinv Hrate.
  - simpl. rewrite app_nil_r. exact Hrate.
  - simpl in Hclock. destruct Hclock as [Hle Hrest]. simpl.
    rewrite app_assoc.
    destruct (perform_config t c self) as [Hw Hm].
    rewrite <- Hw, <- Hm. apply (IH t); [exact Hrest | |]; rewrite Hw, Hm.
    + apply (perform_history _ clock); assumption.
    + apply (perform_rate _ clock); assumption.
Qed.

(** The rate limit itself.  Along any call sequence with a clock that
    never goes back, run from a fresh limiter with [max_requests >= 0], no
    interval [(clock - window_size, clock]], wherever it ends, contains
    more than [max_requests] admitted timestamps of one identity. *)
Theorem admissions_respect_limit (size : Q) (limit : Z)
    (trace : list (Q * call)) (user_id : string) (clock : Q) :
  (0 <= limit)%Z ->
  nondecreasing (map fst trace) ->
  (window_count size clock (admitted user_id trace (Build size limit ∅))
   <= limit)%Z.
Proof.
  intros Hlimit Hclock.
  assert (Hstart : exists start, clock_from start (map fst trace)).
  { destruct trace as [| [t c] rest]; simpl in *.
    - exists 0. exact I.
    - exists t. split; [lra | exact Hclock]. }
  destruct Hstart as [start Hfrom].
  pose proof (run_rate user_id trace start (Build size limit ∅) [] Hfrom) as H.
  simpl in H. apply H.
  - apply history_ok_empty. exact Hlimit.
  - intros c. unfold window_count. simpl. exact Hlimit.
Qed.

Lemma admissions_respect_limit_witness :
  let trace := [(0, RecordMessage "u3"); (1, RecordMessage "u3");
                (2, RecordMessage "u3"); (3, RecordMessage "u3");
                (11, RecordMessage "u3")] in
  (0 <= 3)%Z
  /\ nondecreasing (map fst trace)
  /\ (window_count 10 (21 # 2) (admitted "u3" trace (Build 10 3 ∅)) <= 3)%Z.
Proof.
  intros trace.
  assert (H1 : (0 <= 3)%Z) by lia.
  assert (H2 : nondecreasing (map fst trace)).
  { simpl. repeat split; lra. }
  split; [exact H1 | split; [exact H2 |]].
  exact (admissions_respect_limit 10 3 trace "u3" (21 # 2) H1 H2).
Defined.

(** ** Sliding window: one identity among many *)

Lemma same_view_refl (user_id : string) (self : SlidingWindowRateLimiter) :
  same_view user_id self self.
Proof. repeat split. Qed.

Lemma perform_same_view_own (user_id : string) (now : Q) (c : call)
    (self other : SlidingWindowRateLimiter) :
  subject c = user_id ->
  same_view user_id self other ->
  same_view user_id (perform now c self) (perform now c other)
  /\ admits user_id now c self = admits user_id now c other.
Proof.
  intros Hc (Hw & Hm & He).
  destruct (perform_config now c self) as [Hw1 Hm1].
  destruct (perform_config now c other) as [Hw2 Hm2].
  assert (Hcfg : window_size (perform now c self)
                 = window_size (perform now c other)
                 /\ max_requests (perform now c self)
                    = max_requests (perform now c other))
    by (split; congruence).
  destruct c as [u | u | u]; simpl in Hc; subst u; simpl.
  - split; [| reflexivity]. destruct Hcfg as [? ?].
    repeat split; try assumption.
    rewrite !cleanup_entries. congruence.
  - pose proof (record_message_entries user_id now self) as R1.
    pose proof (record_message_entries user_id now other) as R2.
    simpl in R1, R2. rewrite <- Hw, <- Hm, <- He in R2.
    destruct Hcfg as [? ?].
    destruct (_ <? _)%Z in R1, R2; destruct R1 as [F1 E1];
      destruct R2 as [F2 E2]; rewrite F1, F2;
      (split; [| reflexivity]); repeat split; try assumption; congruence.
  - split; [| reflexivity]. destruct Hcfg as [? ?].
    repeat split; try assumption.
    rewrite !cleanup_entries. congruence.
Qed.

Lemma perform_same_view_other (user_id : string) (now : Q) (c : call)
    (self other : SlidingWindowRateLimiter) :
  subject c <> user_id ->
  same_view user_id self other ->
  same_view user_id (perform now c self) other
  /\ admits user_id now c self = false.
Proof.
  intros Hc (Hw & Hm & He).
  destruct (perform_config now c self) as [Hw1 Hm1].
  split.
  - repeat split; try congruence.
    unfold entries. rewrite perform_lookup_other by exact Hc. exact He.
  - destruct c as [u | u | u]; simpl in *; try reflexivity.
    rewrite bool_decide_eq_false_2 by exact Hc. reflexivity.
Qed.

Lemma own_calls_cons (user_id : string) (t : Q) (c : call)
    (rest : list (Q * call)) :
  own_calls user_id ((t, c) :: rest)
  = if bool_decide (subject c = user_id)
    then (t, c) :: own_calls user_id rest
    else own_calls user_id rest.
Proof. reflexivity. Qed.

Lemma run_own_calls (user_id : string) (trace : list (Q * call)) :
  forall self other : SlidingWindowRateLimiter,
    same_view user_id self other ->
    same_view user_id (run trace self) (run (own_calls user_id trace) other)
    /\ admitted user_id trace self
       = admitted user_id (own_calls user_id trace) other.
Proof.
  induction trace as [| [t c] rest IH]; intros self other Hview.
  - split; [exact Hview | reflexivity].
  - rewrite own_calls_cons.
    destruct (decide (subject c = user_id)) as [Heq | Hne].
    + rewrite bool_decide_eq_true_2 by exact Heq.
      destruct (perform_same_view_own user_id t c self other Heq Hview)
        as [Hnext Hadm].
      destruct (IH _ _ Hnext) as [Hrun Hrest].
      split; [exact Hrun |].
      cbn [admitted]. rewrite Hadm. f_equal. exact Hrest.
    + rewrite bool_decide_eq_false_2 by exact Hne.
      destruct (perform_same_view_other user_id t c self other Hne Hview)
        as [Hnext Hadm].
      destruct (IH _ _ Hnext) as [Hrun Hrest].
      split; [exact Hrun |].
      cbn [admitted]. rewrite Hadm. exact Hrest.
Qed.

(** What a limiter does for one identity does not depend on the calls made
    for other identities: dropping those calls from a call sequence changes
    neither the admitted timestamps of the identity nor its deque at the
    end. *)
Theorem other_identities_do_not_matter (user_id : string)
    (trace : list (Q * call)) (self : SlidingWindowRateLimiter) :
  admitted user_id trace self
  = admitted user_id (own_calls user_id trace) self
  /\ entries user_id (run trace self)
     = entries user_id (run (own_calls user_id trace) self).
Proof.
  destruct (run_own_calls user_id trace self self (same_view_refl user_id self))
    as [(_ & _ & He) Hadm].
  split; [exact Hadm | exact He].
Qed.

End SlidingWindowLaws.

(** ** Fixed interval: further properties *)

Module ThrottlingLaws.
Import Throttling ThrottlingTrace ThrottlingCalls.

(** After a refused [record_message] the reported waiting time is strictly
    positive and exact: a later [record_message] for the identity is
    admitted exactly when at least that much time has passed. *)
Theorem throttling_wait_after_refusal_is_exact (user_id : string)
    (now stamp : Q) (self : ThrottlingRateLimiter) :
  fst (record_message user_id now stamp self) = false ->
  snd (record_message user_id now stamp self) = self
  /\ 0 < fst (time_until_next_allowed user_id now self)
  /\ forall later stamp',
       fst (record_message user_id later stamp' self) = true
       <-> now + fst (time_until_next_allowed user_id now self) <= later.
Proof.
  unfold record_message, can_send_message, time_until_next_allowed. simpl.
  destruct (user_last_timestamp self !! user_id) as [last |]; [| discriminate].
  destruct (Qle_bool (min_interval self) (now - last)) eqn:E; [discriminate |].
  intros _. apply Qle_bool_false_iff in E.
  destruct (py_max_zero_spec (min_interval self - (now - last))) as (_ & H & _).
  rewrite H by lra. split; [reflexivity | split; [lra |]].
  intros later stamp'.
  destruct (Qle_bool (min_interval self) (later - last)) eqn:L; simpl.
  - apply Qle_bool_iff in L. split; [intros _; lra | reflexivity].
  - apply Qle_bool_false_iff in L. split; [discriminate | intros; lra].
Qed.

Lemma throttling_wait_after_refusal_is_exact_witness :
  let self := Build 10 {[ "u2" := 0 ]} in
  fst (record_message "u2" 4 4 self) = false
  /\ 0 < fst (time_until_next_allowed "u2" 4 self).
Proof.
  intros self.
  assert (H : fst (record_message "u2" 4 4 self) = false) by reflexivity.
  split; [exact H |].
  exact (proj1 (proj2 (throttling_wait_after_refusal_is_exact "u2" 4 4 self H))).
Defined.

(** [can_send_message] answers [True] exactly when the waiting time at the
    same clock value is zero. *)
Theorem throttling_zero_wait_iff_allowed (user_id : string) (now : Q)
    (self : ThrottlingRateLimiter) :
  fst (can_send_message user_id now self) = true
  <-> fst (time_until_next_allowed user_id now self) == 0.
Proof.
  unfold can_send_message, time_until_next_allowed. simpl.
  destruct (user_last_timestamp self !! user_id) as [last |].
  - destruct (py_max_zero_spec (min_interval self - (now - last)))
      as (Hneg & Hpos & _).
    rewrite Qle_bool_iff. split.
    + intros H. apply Hneg. lra.
    + intros H.
      destruct (Qlt_le_dec (now - last) (min_interval self)) as [Hlt | Hge];
        [| exact Hge].
      rewrite Hpos in H by lra. lra.
  - split; [reflexivity | auto].
Qed.

(** The waiting time is never negative.  While the clock has not gone back
    behind the stored timestamp it is at most [min_interval] (for a
    non-negative interval); if the clock reads earlier than the stored
    timestamp, the elapsed time is negative and the waiting time exceeds
    [min_interval]. *)
Theorem throttling_wait_bounds (user_id : string) (now : Q)
    (self : ThrottlingRateLimiter) :
  0 <= fst (time_until_next_allowed user_id now self)
  /\ (forall last,
        user_last_timestamp self !! user_id = Some last ->
        (last <= now -> 0 <= min_interval self ->
         fst (time_until_next_allowed user_id now self) <= min_interval self)
        /\ (now < last ->
            min_interval self < fst (time_until_next_allowed user_id now self))).
Proof.
  unfold time_until_next_allowed. simpl.
  destruct (user_last_timestamp self !! user_id) as [last |].
  - destruct (py_max_zero_spec (min_interval self - (now - last)))
      as (Hneg & Hpos & Hnonneg).
    split; [exact Hnonneg |].
    intros last' H. apply (inj Some) in H. subst last'. split.
    + intros Hpast Hint.
      destruct (Qlt_le_dec (min_interval self - (now - last)) 0) as [Hlt | Hge].
      * rewrite Hneg by lra. exact Hint.
      * rewrite Hpos by exact Hge. lra.
    + intros Hback.
      destruct (Qlt_le_dec (min_interval self - (now - last)) 0) as [Hlt | Hge].
      * rewrite Hneg by lra. lra.
      * rewrite Hpos by exact Hge. lra.
  - split; [lra | intros last H; discriminate].
Qed.

Lemma throttling_wait_bounds_witness :
  let self := Build 10 {[ "u2" := 5 ]} in
  user_last_timestamp self !! "u2" = Some 5
  /\ 3 < 5
  /\ min_interval self < fst (time_until_next_allowed "u2" 3 self).
Proof.
  intros self.
  assert (H1 : user_last_timestamp self !! "u2" = Some 5) by reflexivity.
  assert (H2 : 3 < 5) by lra.
  split; [exact H1 | split; [exact H2 |]].
  exact (proj2 (proj2 (throttling_wait_bounds "u2" 3 self) 5 H1) H2).
Defined.

(** With [min_interval <= 0] the limiter never refuses, as long as the
    clock is not behind the stored timestamp. *)
Theorem nonpositive_interval_never_refuses (user_id : string)
    (now stamp : Q) (self : ThrottlingRateLimiter) :
  min_interval self <= 0 ->
  (forall last, user_last_timestamp self !! user_id = Some last -> last <= now) ->
  fst (record_message user_id now stamp self) = true.
Proof.
  intros Hint Hpast. unfold record_message, can_send_message. simpl.
  destruct (user_last_timestamp self !! user_id) as [last |]; [| reflexivity].
  specialize (Hpast last eq_refl).
  assert (H : Qle_bool (min_interval self) (now - last) = true)
    by (apply Qle_bool_iff; lra).
  rewrite H. reflexivity.
Qed.

Lemma nonpositive_interval_never_refuses_witness :
  let self := Build 0 {[ "u2" := 5 ]} in
  min_interval self <= 0
  /\ (forall last, user_last_timestamp self !! "u2" = Some last -> last <= 5)
  /\ fst (record_message "u2" 5 5 self) = true.
Proof.
  intros self.
  assert (H1 : min_interval self <= 0) by (simpl; lra).
  assert (H2 : forall last,
             user_last_timestamp self !! "u2" = Some last -> last <= 5).
  { intros last H. apply (inj Some) in H. subst last. lra. }
  split; [exact H1 | split; [exact H2 |]].
  exact (nonpositive_interval_never_refuses "u2" 5 5 self H1 H2).
Defined.

(** ** Fixed interval: whole call sequences *)

Lemma spaced_snoc (interval stamp : Q) (stamps : list Q) :
  spaced interval stamps ->
  (forall latest, last stamps = Some latest -> interval <= stamp - latest) ->
  spaced interval (stamps ++ [stamp]).
Proof.
  induction stamps as [| a rest IH]; intros Hspaced Hlast.
  - simpl. auto.
  - destruct Hspaced as [Hhead Hrest].
    destruct rest as [| b rest'].
    + simpl. split; [| auto]. apply Hlast. reflexivity.
    + split; [exact Hhead |].
      apply IH; [exact Hrest |].
      intros latest H. apply Hlast. rewrite last_cons, H. reflexivity.
Qed.

(** One call: the stored timestamp stays the latest admitted one and the
    admitted timestamps stay spaced. *)
Lemma perform_spaced (user_id : string) (now : Q) (c : call)
    (self : ThrottlingRateLimiter) (history : list Q) :
  stamp_after_check (now, c) ->
  user_last_timestamp self !! user_id = last history ->
  spaced (min_interval self) history ->
  let history' :=
    history ++ (if admits user_id now c self
                then match c with RecordMessage _ stamp => [stamp] | _ => [] end
                else []) in
  user_last_timestamp (perform now c self) !! user_id = last history'
  /\ spaced (min_interval self) history'.
Proof.
  intros Hstamp Hstored Hspaced.
  destruct c as [u | u stamp | u]; simpl; try (rewrite app_nil_r; auto).
  unfold stamp_after_check in Hstamp. simpl in Hstamp.
  destruct (decide (u = user_id)) as [-> | Hne].
  - rewrite bool_decide_eq_true_2 by reflexivity. simpl.
    unfold record_message, can_send_message. simpl. rewrite Hstored.
    destruct (last history) as [latest |] eqn:L; simpl.
    + destruct (Qle_bool (min_interval self) (now - latest)) eqn:E; simpl.
      * rewrite lookup_insert_eq, last_snoc. split; [reflexivity |].
        apply spaced_snoc; [exact Hspaced |].
        intros latest' H. rewrite L in H. apply (inj Some) in H. subst latest'.
        apply Qle_bool_iff in E. lra.
      * rewrite app_nil_r, Hstored. auto.
    + rewrite lookup_insert_eq, last_snoc. split; [reflexivity |].
      apply spaced_snoc; [exact Hspaced |].
      intros latest H. rewrite L in H. discriminate.
  - rewrite bool_decide_eq_false_2 by exact Hne. simpl. rewrite app_nil_r.
    split; [| exact Hspaced]. rewrite <- Hstored.
    apply (ThrottlingStore.throttling_perform_lookup_other now
             (RecordMessage u stamp) user_id self).
    simpl. apply bool_decide_eq_false_2. exact Hne.
Qed.

Lemma run_spaced (user_id : string) (trace : list (Q * call)) :
  forall (self : ThrottlingRateLimiter) (history : list Q),
    Forall stamp_after_check trace ->
    user_last_timestamp self !! user_id = last history ->
    spaced (min_interval self) history ->
    user_last_timestamp (run trace self) !! user_id
    = last (history ++ admitted user_id trace self)
    /\ spaced (min_interval self) (history ++ admitted user_id trace self).
Proof.
  induction trace as [| [t c] rest IH]; intros self history Hall Hstored Hspaced.
  - simpl. rewrite app_nil_r. auto.
  - apply Forall_cons_1 in Hall as [Hc Hrest].
    destruct (perform_spaced user_id t c self history Hc Hstored Hspaced)
      as [Hstored' Hspaced'].
    cbn [run admitted]. rewrite app_assoc.
    rewrite <- (ThrottlingStore.throttling_perform_config t c self) in Hspaced' |- *.
    apply IH; assumption.
Qed.

(** The throttle itself.  Along any call sequence run from a fresh
    limiter, in which no [record_message] call stores a timestamp earlier
    than the clock value it checked, consecutive admitted timestamps of an
    identity are at least [min_interval] apart, and the store holds for the
    identity exactly the latest admitted timestamp (none if there is
    none). *)
Theorem throttling_admissions_are_spaced (interval : Q)
    (trace : list (Q * call)) (user_id : string) :
  Forall stamp_after_check trace ->
  spaced interval (admitted user_id trace (Build interval ∅))
  /\ user_last_timestamp (run trace (Build interval ∅)) !! user_id
     = last (admitted user_id trace (Build interval ∅)).
Proof.
  intros Hall.
  destruct (run_spaced user_id trace (Build interval ∅) [] Hall) as [H1 H2].
  - simpl. apply lookup_empty.
  - simpl. exact I.
  - simpl in H1, H2. auto.
Qed.

Lemma throttling_admissions_are_spaced_witness :
  let trace := [(0, RecordMessage "u2" 0); (4, RecordMessage "u2" 4);
                (5, CanSend "u2"); (10, RecordMessage "u2" (21 # 2))] in
  Forall stamp_after_check trace
  /\ spaced 10 (admitted "u2" trace (Build 10 ∅)).
Proof.
  intros trace.
  assert (H : Forall stamp_after_check trace).
  { repeat constructor; unfold stamp_after_check; simpl; lra. }
  split; [exact H |].
  exact (proj1 (throttling_admissions_are_spaced 10 trace "u2" H)).
Defined.

Example throttling_spacing_scenario :
  admitted "u2"
    [(0, RecordMessage "u2" 0); (4, RecordMessage "u2" 4);
     (5, CanSend "u2"); (10, RecordMessage "u2" (21 # 2))]
    (Build 10 ∅)
  = [0; 21 # 2].
Proof. vm_compute. reflexivity. Qed.

End ThrottlingLaws.

(** ** Bounds that need no assumption on the clock *)

Module SlidingWindowBounds.
Import SlidingWindow SlidingWindowTrace SlidingWindowProofs.

Lemma perform_length (user_id : string) (now : Q) (c : call)
    (self : SlidingWindowRateLimiter) :
  (Z.of_nat (length (entries user_id self)) <= max_requests self)%Z ->
  (Z.of_nat (length (entries user_id (perform now c self)))
   <= max_requests self)%Z.
Proof.
  intros Hlen.
  pose proof (pop_expired_length (window_size self) now (entries user_id self))
    as Hpop.
  destruct (decide (subject c = user_id)) as [Heq | Hne].
  - destruct c as [u | u | u]; simpl in Heq; subst u; simpl.
    + rewrite cleanup_entries. lia.
    + pose proof (record_message_entries user_id now self) as Hrec.
      simpl in Hrec.
      destruct (_ <? _)%Z eqn:E in Hrec; destruct Hrec as [_ ->].
      * apply Z.ltb_lt in E. rewrite length_app. simpl. lia.
      * lia.
    + rewrite cleanup_entries. lia.
  - unfold entries in *. rewrite perform_lookup_other by exact Hne. exact Hlen.
Qed.

(** Whatever the clock does, going back included, a deque never grows
    beyond [max_requests] timestamps: every call keeps the bound, so a
    limiter whose deque satisfies it (a fresh one with [max_requests >= 0]
    in particular) satisfies it after any call sequence. *)
Theorem deque_never_exceeds_limit (user_id : string)
    (trace : list (Q * call)) :
  forall self : SlidingWindowRateLimiter,
    (Z.of_nat (length (entries user_id self)) <= max_requests self)%Z ->
    (Z.of_nat (length (entries user_id (run trace self)))
     <= max_requests self)%Z.
Proof.
  induction trace as [| [t c] rest IH]; intros self Hlen; [exact Hlen |].
  simpl. destruct (perform_config t c self) as [_ Hm].
  rewrite <- Hm. apply IH. rewrite Hm. apply perform_length. exact Hlen.
Qed.

Lemma deque_never_exceeds_limit_witness :
  let trace := [(5, RecordMessage "u1"); (3, RecordMessage "u1");
                (9, RecordMessage "u1"); (1, RecordMessage "u1")] in
  let fresh := Build 10 2 ∅ in
  (Z.of_nat (length (entries "u1" fresh)) <= max_requests fresh)%Z
  /\ (Z.of_nat (length (entries "u1" (run trace fresh)))
      <= max_requests fresh)%Z.
Proof.
  intros trace fresh.
  assert (H : (Z.of_nat (length (entries "u1" fresh)) <= max_requests fresh)%Z)
    by (vm_compute; discriminate).
  split; [exact H | exact (deque_never_exceeds_limit "u1" trace fresh H)].
Defined.

Lemma single_entry_wait_decay_witness :
  let self := Build 10 1 {[ "u1" := [0] ]} in
  (length (entries "u1" self) <= 1)%nat
  /\ 4 <= 7
  /\ exists w1 w2,
       fst (time_until_next_allowed "u1" 4 self) = Some w1
       /\ fst (time_until_next_allowed "u1" 7 self) = Some w2
       /\ w2 <= w1.
Proof.
  intros self.
  assert (H1 : (length (entries "u1" self) <= 1)%nat) by (vm_compute; lia).
  assert (H2 : 4 <= 7) by lra.
  split; [exact H1 | split; [exact H2 |]].
  destruct (single_entry_wait_decay "u1" 4 7 self H1 H2)
    as (w1 & w2 & V1 & _ & V2 & Hle & _).
  exists w1, w2. auto.
Defined.

End SlidingWindowBounds.

Lemma throttling_wait_decay_witness :
  let self := Throttling.Build 10 {[ "u2" := 0 ]} in
  4 <= 7
  /\ fst (Throttling.time_until_next_allowed "u2" 7 self)
     <= fst (Throttling.time_until_next_allowed "u2" 4 self).
Proof.
  intros self.
  assert (H : 4 <= 7) by lra.
  split; [exact H |].
  exact (proj1 (proj2 (proj2
    (ThrottlingProofs.throttling_wait_decay "u2" 4 7 self))) H).
Defined.
